(** * FlagsManager: bitwise flag register (src/index.js)

    A shallow embedding of the [FlagsManager] class and the proofs of the
    properties its specification states.

    Layout:
    - [JSNum]     : the 32-bit integer operators of JavaScript on [Z];
    - [JSObject]  : plain objects with string keys, in own-property order;
    - completions and the method monad;
    - the class [FlagsManager], method by method;
    - the lemmas and the theorems. *)

From Stdlib Require Import ZArith List String Ascii Lia Bool DecimalString Sorted.
Import ListNotations.

Local Open Scope Z_scope.

(* ------------------------------------------------------------------ *)
(** ** JavaScript's 32-bit integer operators *)

Module JSNum.

(** [ToUint32]: the argument modulo 2^32. *)
Definition toUint32 (z : Z) : Z := z mod 2 ^ 32.

(** [ToInt32]: the argument modulo 2^32, read as a signed 32-bit value. *)
Definition toInt32 (z : Z) : Z :=
  let int32bit := z mod 2 ^ 32 in
  if 2 ^ 31 <=? int32bit then int32bit - 2 ^ 32 else int32bit.

(** The values a bitwise operator can return. *)
Definition Int32 (z : Z) : Prop := - 2 ^ 31 <= z < 2 ^ 31.

(** [a | b] *)
Definition bor (a b : Z) : Z := toInt32 (Z.lor (toInt32 a) (toInt32 b)).
(** [a & b] *)
Definition band (a b : Z) : Z := toInt32 (Z.land (toInt32 a) (toInt32 b)).
(** [a ^ b] *)
Definition bxor (a b : Z) : Z := toInt32 (Z.lxor (toInt32 a) (toInt32 b)).
(** [~a] *)
Definition bnot (a : Z) : Z := toInt32 (Z.lnot (toInt32 a)).
(** [a << k]: the shift count is [ToUint32 k & 31]. *)
Definition shl (a k : Z) : Z :=
  toInt32 (Z.shiftl (toInt32 a) (Z.land (toUint32 k) 31)).

(** The decimal digits of an integer, with a leading minus sign when it is
    negative. *)
Definition decimal (n : Z) : string := NilZero.string_of_int (Z.to_int n).

(** [Number.isSafeInteger(n)] for an integer [n]: [|n| <= 2^53 - 1]. *)
Definition safe_integer (n : Z) : bool := Z.abs n <=? 2 ^ 53 - 1.

(** [`${n}`], the text of the Number [n].  For a safe integer it is its
    decimal digits.  Beyond the safe integers the text is the shortest digits
    that read back as the same Number, in exponent form from 10^21 on (2^64
    gives 18446744073709552000 and 10^21 gives 1e+21); that text is not
    spelled out here: [None]. *)
Definition toString (n : Z) : option string :=
  if safe_integer n then Some (decimal n) else None.

End JSNum.

Import JSNum.

(* ------------------------------------------------------------------ *)
(** ** Plain objects with integer values

    An object is kept as the list of its own properties in the order
    [Object.keys] and [Object.values] enumerate them: keys that are array
    indices first, in ascending numeric order, then the other string keys in
    the order they were created. *)

Module JSObject.

Definition object : Type := list (string * Z).

Definition is_digit (c : ascii) : bool :=
  let n := N_of_ascii c in ((48 <=? n) && (n <=? 57))%N.

Fixpoint digits_value (s : string) (acc : N) : option N :=
  match s with
  | EmptyString => Some acc
  | String c s' =>
      if is_digit c
      then digits_value s' (10 * acc + (N_of_ascii c - 48))%N
      else None
  end.

(** A key is an array index when it is the canonical decimal form of an
    integer in [0, 2^32 - 2]. *)
Definition array_index (k : string) : option N :=
  match k with
  | EmptyString => None
  | String c rest =>
      if (Ascii.eqb c "0" && negb (String.eqb rest EmptyString))%bool
      then None
      else match digits_value k 0 with
           | Some v => if (v <? 2 ^ 32 - 1)%N then Some v else None
           | None => None
           end
  end.

(** [Object.keys o], [Object.values o]. *)
Definition keys (o : object) : list string := map fst o.
Definition values (o : object) : list Z := map snd o.

(** [o[k]] for an own property; [None] when [o] has no own property [k]. *)
Fixpoint get (k : string) (o : object) : option Z :=
  match o with
  | [] => None
  | (k', v) :: o' => if String.eqb k k' then Some v else get k o'
  end.

Definition has (k : string) (o : object) : bool :=
  match get k o with Some _ => true | None => false end.

(** Assignment to an existing own property keeps its position. *)
Fixpoint update (k : string) (v : Z) (o : object) : object :=
  match o with
  | [] => []
  | (k', v') :: o' =>
      if String.eqb k k' then (k', v) :: o' else (k', v') :: update k v o'
  end.

(** A new array-index key goes to its numeric position among the index
    keys, which come first. *)
Fixpoint add_index (i : N) (k : string) (v : Z) (o : object) : object :=
  match o with
  | [] => [(k, v)]
  | (k', v') :: o' =>
      match array_index k' with
      | Some j =>
          if (j <? i)%N then (k', v') :: add_index i k v o' else (k, v) :: o
      | None => (k, v) :: o
      end
  end.

(** [o[k] = v] on an ordinary object, for a number [v].  The key
    ["__proto__"] reaches the accessor inherited from [Object.prototype],
    which ignores a value that is not an object: no own property is
    created. *)
Definition set (k : string) (v : Z) (o : object) : object :=
  if String.eqb k "__proto__" then o
  else if has k o then update k v o
  else match array_index k with
       | Some i => add_index i k v o
       | None => o ++ [(k, v)]
       end.

(** [xs.includes(x)] on an array of integers. *)
Definition includes (x : Z) (xs : list Z) : bool := existsb (Z.eqb x) xs.

(** [xs.reduce((acc, x, index) => f(acc, x, index), init)]; [index] is the
    position of [x] in the whole array. *)
Fixpoint reduce_from {A B : Type} (f : B -> A -> Z -> B)
         (index : Z) (xs : list A) (acc : B) : B :=
  match xs with
  | [] => acc
  | x :: xs' => reduce_from f (index + 1) xs' (f acc x index)
  end.

Definition reduce {A B : Type} (f : B -> A -> Z -> B) (xs : list A) (init : B) : B :=
  reduce_from f 0 xs init.

End JSObject.

Import JSObject.

(* ------------------------------------------------------------------ *)
(** ** Completions and the method monad *)

(** The message of an error: a text, or a text followed by the text of a
    Number that [toString] does not spell out. *)
Inductive message : Type :=
| Text (s : string)
| TextThenNumber (s : string) (n : Z).

(** [`s${n}`], a template literal with the Number [n] after the text [s]. *)
Definition template (s : string) (n : Z) : message :=
  match toString n with
  | Some digits => Text (s ++ digits)
  | None => TextThenNumber s n
  end.

(** [new Error(message)] *)
Inductive exn : Type := Error (message : message).

Inductive completion (A : Type) : Type :=
| Normal (a : A)
| Throw (e : exn).

Arguments Normal {A} a.
Arguments Throw {A} e.

(** The instance: [this.flags] and [this.FLAGS]. *)
Record FlagsManager : Type := mkFlagsManager {
  flags : Z;
  FLAGS : object
}.

(** A method call: from the instance before the call to its completion and
    the instance after it.  A call that throws leaves the instance as it was
    at the [throw]. *)
Definition M (A : Type) : Type := FlagsManager -> completion A * FlagsManager.

Definition ret {A : Type} (a : A) : M A := fun this => (Normal a, this).

Definition throw {A : Type} (e : exn) : M A := fun this => (Throw e, this).

Definition bind {A B : Type} (c : M A) (k : A -> M B) : M B :=
  fun this =>
    match c this with
    | (Normal a, this') => k a this'
    | (Throw e, this') => (Throw e, this')
    end.

Notation "x <- c ;; k" := (bind c (fun x => k))
  (at level 61, c at next level, right associativity).
Notation "c ;; k" := (bind c (fun _ => k))
  (at level 61, right associativity).

(** [this.flags = v] *)
Definition assign_flags (v : Z) : M unit :=
  fun this => (Normal tt, mkFlagsManager v (FLAGS this)).

(** Reading a field of [this]. *)
Definition read {A : Type} (f : FlagsManager -> A) : M A :=
  fun this => (Normal (f this), this).

(** [xs.forEach(x => body(x))] *)
Fixpoint forEach {A : Type} (body : A -> M unit) (xs : list A) : M unit :=
  match xs with
  | [] => ret tt
  | x :: xs' => body x ;; forEach body xs'
  end.

(** [xs.filter(x => p(x))] with a callback that may throw. *)
Fixpoint filter_cb {A : Type} (p : A -> M bool) (xs : list A) : M (list A) :=
  match xs with
  | [] => ret []
  | x :: xs' =>
      b <- p x ;;
      rest <- filter_cb p xs' ;;
      ret (if b then x :: rest else rest)
  end.

(** [xs.map(x => f(x))] with a callback that may throw. *)
Fixpoint map_cb {A B : Type} (f : A -> M B) (xs : list A) : M (list B) :=
  match xs with
  | [] => ret []
  | x :: xs' =>
      y <- f x ;;
      rest <- map_cb f xs' ;;
      ret (y :: rest)
  end.

(* ------------------------------------------------------------------ *)
(** ** The class *)

(** [static DEFAULT_FLAGS = Object.freeze({...})] *)
Definition DEFAULT_FLAGS : object :=
  [ ("VERIFIED_EMAIL"%string, shl 1 0);
    ("VERIFIED_PHONE"%string, shl 1 1);
    ("INVITED"%string, shl 1 2);
    ("ACCEPTED"%string, shl 1 3);
    ("RESET_PASSWORD"%string, shl 1 4);
    ("LOGGED_IN_FIRST_TIME"%string, shl 1 5);
    ("LOGGED_IN"%string, shl 1 6);
    ("ADMIN"%string, shl 1 7);
    ("MODERATOR"%string, shl 1 8);
    ("BANNED"%string, shl 1 9);
    ("PREMIUM_USER"%string, shl 1 10);
    ("TWO_FACTOR_AUTH"%string, shl 1 11);
    ("EMAIL_NOTIFICATIONS"%string, shl 1 12);
    ("SMS_NOTIFICATIONS"%string, shl 1 13);
    ("PROFILE_COMPLETED"%string, shl 1 14) ].

(** [createCustomFlags(flagNames)] *)
Definition createCustomFlags (flagNames : list string) : M object :=
  ret (reduce (fun acc flag index => set flag (shl 1 index) acc) flagNames []).

(** [_validateFlag(flag)] *)
Definition _validateFlag (flag : Z) : M unit :=
  FLAGS_ <- read FLAGS ;;
  if negb (includes flag (values FLAGS_))
  then throw (Error (template "Invalid flag: " flag))
  else ret tt.

(** [setFlags(...flags)] *)
Definition setFlags (flags_ : list Z) : M unit :=
  forEach (fun flag => _validateFlag flag) flags_ ;;
  current <- read flags ;;
  assign_flags (fold_left (fun acc flag => bor acc flag) flags_ current).

(** [isFlagSet(flag)] *)
Definition isFlagSet (flag : Z) : M bool :=
  _validateFlag flag ;;
  current <- read flags ;;
  ret (negb (band current flag =? 0)).

(** [toggleFlag(flag)] *)
Definition toggleFlag (flag : Z) : M unit :=
  _validateFlag flag ;;
  current <- read flags ;;
  assign_flags (bxor current flag).

(** [unsetFlag(flag)] *)
Definition unsetFlag (flag : Z) : M unit :=
  _validateFlag flag ;;
  current <- read flags ;;
  assign_flags (band current (bnot flag)).

(** [getActiveFlags()].  [this.FLAGS[flag]] is [undefined] for a name that
    is not an own property; [isFlagSet(undefined)] then throws from
    [_validateFlag]. *)
Definition getActiveFlags : M (list string) :=
  FLAGS_ <- read FLAGS ;;
  filter_cb
    (fun flag =>
       match get flag FLAGS_ with
       | Some v => isFlagSet v
       | None => throw (Error (Text "Invalid flag: undefined"))
       end)
    (keys FLAGS_).

(** [clearFlags()] *)
Definition clearFlags : M unit := assign_flags 0.

(** [areFlagsSet(...flags)] *)
Definition areFlagsSet (flags_ : list Z) : M bool :=
  let combinedFlags := fold_left (fun acc flag => bor acc flag) flags_ 0 in
  current <- read flags ;;
  ret (band current combinedFlags =? combinedFlags).

(** A row of the table: [{ Flag: flag, Status: "Active" | "Inactive" }]. *)
Record status_row : Type := mkRow {
  Flag : string;
  Status : string
}.

(** [printFlagsStatus()].  The console is not part of the instance: the
    result is [flagsStatus], the array the method hands to [console.table]. *)
Definition printFlagsStatus : M (list status_row) :=
  FLAGS_ <- read FLAGS ;;
  flagsStatus <-
    map_cb
      (fun flag =>
         set_ <- match get flag FLAGS_ with
                 | Some v => isFlagSet v
                 | None => throw (Error (Text "Invalid flag: undefined"))
                 end ;;
         ret (mkRow flag (if set_ then "Active" else "Inactive")))
      (keys FLAGS_) ;;
  ret flagsStatus.

(** [new FlagsManager(customFlagNames)]; [None] is a call without the
    argument.  An array, empty or not, is truthy. *)
Definition constructor (customFlagNames : option (list string))
  : completion FlagsManager :=
  let this := mkFlagsManager 0 [] in
  match customFlagNames with
  | Some names =>
      match createCustomFlags names this with
      | (Normal o, this') => Normal (mkFlagsManager (flags this') o)
      | (Throw e, _) => Throw e
      end
  | None => Normal (mkFlagsManager (flags this) DEFAULT_FLAGS)
  end.

(* ------------------------------------------------------------------ *)
(** ** Calls from outside the class

    The public calls that act on the register, and the instances a program
    can reach from the constructor with them.  A caller may catch an error
    and go on, so a failed call is a step too. *)

Inductive call : Type :=
| CallSetFlags (flags_ : list Z)
| CallIsFlagSet (flag : Z)
| CallToggleFlag (flag : Z)
| CallUnsetFlag (flag : Z)
| CallGetActiveFlags
| CallClearFlags
| CallAreFlagsSet (flags_ : list Z).

Definition perform (c : call) : M unit :=
  match c with
  | CallSetFlags fl => setFlags fl
  | CallIsFlagSet a => isFlagSet a ;; ret tt
  | CallToggleFlag a => toggleFlag a
  | CallUnsetFlag a => unsetFlag a
  | CallGetActiveFlags => getActiveFlags ;; ret tt
  | CallClearFlags => clearFlags
  | CallAreFlagsSet fl => areFlagsSet fl ;; ret tt
  end.

(** The instance after a sequence of calls, failed ones included. *)
Definition after_calls (cs : list call) (this : FlagsManager) : FlagsManager :=
  fold_left (fun this c => snd (perform c this)) cs this.

(* ------------------------------------------------------------------ *)
(** ** Vocabulary of the statements *)

(** The error [_validateFlag] throws for [flag]:
    [new Error(`Invalid flag: ${flag}`)]. *)
Definition InvalidFlag (flag : Z) : exn :=
  Error (template "Invalid flag: " flag).

(** [a] is a member of the flag definitions of [this]. *)
Definition defined_flag (this : FlagsManager) (a : Z) : Prop :=
  In a (values (FLAGS this)).

(** The flag definitions are those some call of the constructor builds. *)
Definition constructed (o : object) : Prop :=
  exists customFlagNames this0,
    constructor customFlagNames = Normal this0 /\ FLAGS this0 = o.

(** An instance with constructed flag definitions whose register holds a
    signed 32-bit integer, as every result of a bitwise operator is. *)
Definition instance (this : FlagsManager) : Prop :=
  constructed (FLAGS this) /\ Int32 (flags this).

(** The bit position of a flag value [1 << i], read off its unsigned form. *)
Definition bit_of (a : Z) : Z := Z.log2 (toUint32 a).

(** A name is active when it is an own property of the flag definitions and
    the bit of its value is set in the register. *)
Definition flag_active (this : FlagsManager) (name : string) : bool :=
  match get name (FLAGS this) with
  | Some v => Z.testbit (flags this) (bit_of v)
  | None => false
  end.

(** The composite mask [areFlagsSet] and [setFlags] fold their arguments
    into, starting from [init]. *)
Definition combine (init : Z) (flags_ : list Z) : Z :=
  fold_left (fun acc flag => bor acc flag) flags_ init.

(** The register is a signed 32-bit integer and each of its set bits is a
    bit of some flag value of the definitions [o]. *)
Definition covered (o : object) (r : Z) : Prop :=
  Int32 r /\
  forall n, 0 <= n < 32 -> Z.testbit r n = true ->
            exists v, In v (values o) /\ Z.testbit v n = true.

(** The test [getActiveFlags] and [printFlagsStatus] apply to a name:
    [isFlagSet(this.FLAGS[name])]. *)
Definition name_test (this : FlagsManager) (name : string) : bool :=
  match get name (FLAGS this) with
  | Some v => negb (band (flags this) v =? 0)
  | None => false
  end.

(** [names.map(name => o[name])], for names that are own properties of
    [o]; a name that is not contributes nothing. *)
Definition flag_values_of (o : object) (names : list string) : list Z :=
  flat_map (fun name => match get name o with
                        | Some v => [v]
                        | None => []
                        end) names.

(** [k] is an array index. *)
Definition is_index (k : string) : bool :=
  match array_index k with Some _ => true | None => false end.

(** Two array-index names in ascending numeric order. *)
Definition index_le (k1 k2 : string) : Prop :=
  match array_index k1, array_index k2 with
  | Some i, Some j => (i <= j)%N
  | _, _ => False
  end.

(** The names in the order they are first declared: a name already seen and
    the name ["__proto__"] are passed over. *)
Fixpoint declared (seen names : list string) : list string :=
  match names with
  | [] => []
  | name :: names' =>
      if (String.eqb name "__proto__" || existsb (String.eqb name) seen)%bool
      then declared seen names'
      else name :: declared (seen ++ [name]) names'
  end.

(** The names the constructor declares, in the order of their declaration:
    the list it is given, or the names of [DEFAULT_FLAGS] as written there. *)
Definition declared_names (customFlagNames : option (list string))
  : list string :=
  match customFlagNames with
  | Some names => names
  | None => map fst DEFAULT_FLAGS
  end.

(** A name that an assignment appends to the object: neither the
    ["__proto__"] accessor nor an array index. *)
Definition ordinary_name (k : string) : Prop :=
  k <> "__proto__"%string /\ array_index k = None.

(** The names paired with [1 << index], [1 << (index + 1)], ... in order. *)
Fixpoint numbered (index : Z) (names : list string) : object :=
  match names with
  | [] => []
  | name :: names' => (name, shl 1 index) :: numbered (index + 1) names'
  end.

(** The callback of the [reduce] in [createCustomFlags]:
    [acc[flag] = 1 << index; return acc]. *)
Definition assign_bit (acc : object) (flag : string) (index : Z) : object :=
  set flag (shl 1 index) acc.

(* ------------------------------------------------------------------ *)
(** ** Signed 32-bit integers, bit by bit *)

Section Int32Facts.

Lemma toInt32_range (z : Z) : Int32 (toInt32 z).
Proof.
  unfold Int32, toInt32; cbv zeta.
  pose proof (Z.mod_pos_bound z (2 ^ 32) ltac:(lia)) as Hb.
  destruct (Z.leb_spec (2 ^ 31) (z mod 2 ^ 32)); lia.
Qed.

Lemma toInt32_id (z : Z) : Int32 z -> toInt32 z = z.
Proof.
  unfold Int32, toInt32; cbv zeta; intros Hz.
  destruct (Z_lt_le_dec z 0) as [Hneg | Hpos].
  - replace (z mod 2 ^ 32) with (z + 2 ^ 32).
    + destruct (Z.leb_spec (2 ^ 31) (z + 2 ^ 32)); lia.
    + apply Z.mod_unique with (q := -1); lia.
  - rewrite Z.mod_small by lia.
    destruct (Z.leb_spec (2 ^ 31) z); lia.
Qed.

Lemma toInt32_idem (z : Z) : toInt32 (toInt32 z) = toInt32 z.
Proof. apply toInt32_id, toInt32_range. Qed.

Lemma toInt32_mod (z : Z) : toInt32 z mod 2 ^ 32 = z mod 2 ^ 32.
Proof.
  unfold toInt32; cbv zeta.
  destruct (Z.leb_spec (2 ^ 31) (z mod 2 ^ 32)).
  - replace (z mod 2 ^ 32 - 2 ^ 32) with (z mod 2 ^ 32 + (-1) * 2 ^ 32) by lia.
    rewrite Z.mod_add by lia. apply Z.mod_mod; lia.
  - apply Z.mod_mod; lia.
Qed.

(** Below bit 32, [ToInt32] keeps every bit. *)
Lemma toInt32_testbit_low (z n : Z) :
  n < 32 -> Z.testbit (toInt32 z) n = Z.testbit z n.
Proof.
  intros Hn.
  rewrite <- (Z.mod_pow2_bits_low (toInt32 z) 32 n Hn).
  rewrite toInt32_mod. apply Z.mod_pow2_bits_low; exact Hn.
Qed.

(** From bit 31 on, a signed 32-bit value repeats its sign. *)
Lemma Int32_testbit_high (z n : Z) :
  Int32 z -> 31 <= n -> Z.testbit z n = (z <? 0).
Proof.
  unfold Int32; intros Hz Hn.
  assert (Hpow : 2 ^ 31 <= 2 ^ n) by (apply Z.pow_le_mono_r; lia).
  destruct (Z.ltb_spec z 0) as [Hneg | Hpos].
  - rewrite <- (Z.lnot_involutive z), Z.lnot_spec by lia.
    rewrite <- (Z.mod_small (Z.lnot z) (2 ^ n)) by (unfold Z.lnot; lia).
    rewrite Z.mod_pow2_bits_high by lia. reflexivity.
  - rewrite <- (Z.mod_small z (2 ^ n)) by lia.
    apply Z.mod_pow2_bits_high; lia.
Qed.

Lemma Int32_testbit_sign (z n : Z) :
  Int32 z -> 31 <= n -> Z.testbit z n = Z.testbit z 31.
Proof.
  intros Hz Hn.
  rewrite (Int32_testbit_high z n Hz Hn).
  symmetry; apply Int32_testbit_high; [exact Hz | lia].
Qed.

(** Two signed 32-bit values with the same 32 low bits are equal. *)
Lemma Int32_bits_inj (a b : Z) :
  Int32 a -> Int32 b ->
  (forall n, 0 <= n < 32 -> Z.testbit a n = Z.testbit b n) ->
  a = b.
Proof.
  intros Ha Hb Hbits.
  apply Z.bits_inj'; intros n Hn.
  destruct (Z_lt_le_dec n 32) as [Hlow | Hhigh].
  - apply Hbits; lia.
  - rewrite (Int32_testbit_sign a n Ha), (Int32_testbit_sign b n Hb) by lia.
    apply Hbits; lia.
Qed.

Lemma bor_range (a b : Z) : Int32 (bor a b).
Proof. apply toInt32_range. Qed.
Lemma band_range (a b : Z) : Int32 (band a b).
Proof. apply toInt32_range. Qed.
Lemma bxor_range (a b : Z) : Int32 (bxor a b).
Proof. apply toInt32_range. Qed.
Lemma bnot_range (a : Z) : Int32 (bnot a).
Proof. apply toInt32_range. Qed.
Lemma shl_range (a k : Z) : Int32 (shl a k).
Proof. apply toInt32_range. Qed.

Lemma bor_testbit (a b n : Z) :
  0 <= n < 32 ->
  Z.testbit (bor a b) n = Z.testbit a n || Z.testbit b n.
Proof.
  intros Hn. unfold bor.
  rewrite toInt32_testbit_low, Z.lor_spec, !toInt32_testbit_low by lia.
  reflexivity.
Qed.

Lemma band_testbit (a b n : Z) :
  0 <= n < 32 ->
  Z.testbit (band a b) n = Z.testbit a n && Z.testbit b n.
Proof.
  intros Hn. unfold band.
  rewrite toInt32_testbit_low, Z.land_spec, !toInt32_testbit_low by lia.
  reflexivity.
Qed.

Lemma bxor_testbit (a b n : Z) :
  0 <= n < 32 ->
  Z.testbit (bxor a b) n = xorb (Z.testbit a n) (Z.testbit b n).
Proof.
  intros Hn. unfold bxor.
  rewrite toInt32_testbit_low, Z.lxor_spec, !toInt32_testbit_low by lia.
  reflexivity.
Qed.

Lemma bnot_testbit (a n : Z) :
  0 <= n < 32 ->
  Z.testbit (bnot a) n = negb (Z.testbit a n).
Proof.
  intros Hn. unfold bnot.
  rewrite toInt32_testbit_low, Z.lnot_spec, toInt32_testbit_low by lia.
  reflexivity.
Qed.

(** [1 << k] has exactly bit [k mod 32] among its 32 bits. *)
Lemma shl_1_testbit (k n : Z) :
  0 <= n < 32 ->
  Z.testbit (shl 1 k) n = (n =? k mod 32).
Proof.
  intros Hn. unfold shl, toUint32.
  rewrite toInt32_testbit_low by lia.
  change 31 with (Z.ones 5). rewrite Z.land_ones by lia.
  change (toInt32 1) with 1.
  assert (Hk : (k mod 2 ^ 32) mod 2 ^ 5 = k mod 32).
  { change (2 ^ 32) with (2 ^ 5 * 2 ^ 27).
    rewrite Z.rem_mul_r by lia.
    rewrite Z.mul_comm, Z.mod_add by lia.
    rewrite Z.mod_mod by lia. reflexivity. }
  rewrite Hk.
  pose proof (Z.mod_pos_bound k 32 ltac:(lia)) as Hb.
  rewrite Z.shiftl_1_l, Z.pow2_bits_eqb by lia.
  apply Z.eqb_sym.
Qed.

(** An integer whose 32 low bits are all clear reads as 0. *)
Lemma Int32_zero_bits (a : Z) :
  Int32 a ->
  (forall n, 0 <= n < 32 -> Z.testbit a n = false) ->
  a = 0.
Proof.
  intros Ha Hbits.
  apply Int32_bits_inj; [exact Ha | unfold Int32; lia |].
  intros n Hn. rewrite Z.bits_0. apply Hbits; exact Hn.
Qed.

End Int32Facts.

(* ------------------------------------------------------------------ *)
(** ** Stepping through the methods *)

Section MethodEquations.

Lemma includes_In (x : Z) (xs : list Z) : includes x xs = true <-> In x xs.
Proof.
  unfold includes. rewrite existsb_exists. split.
  - intros [y [Hy Heq]]. apply Z.eqb_eq in Heq. subst y. exact Hy.
  - intros Hx. exists x. split; [exact Hx | apply Z.eqb_refl].
Qed.

Lemma includes_not_In (x : Z) (xs : list Z) :
  includes x xs = false <-> ~ In x xs.
Proof.
  rewrite <- includes_In. destruct (includes x xs); split; congruence.
Qed.

Lemma this_eta (this : FlagsManager) :
  mkFlagsManager (flags this) (FLAGS this) = this.
Proof. destruct this; reflexivity. Qed.

Lemma validate_member (this : FlagsManager) (a : Z) :
  defined_flag this a -> _validateFlag a this = (Normal tt, this).
Proof.
  intros Ha. apply includes_In in Ha.
  unfold _validateFlag, bind, read. rewrite Ha. reflexivity.
Qed.

Lemma validate_stranger (this : FlagsManager) (a : Z) :
  ~ defined_flag this a -> _validateFlag a this = (Throw (InvalidFlag a), this).
Proof.
  intros Ha. apply includes_not_In in Ha.
  unfold _validateFlag, bind, read. rewrite Ha. reflexivity.
Qed.

Lemma validate_keeps_this (this : FlagsManager) (a : Z) :
  snd (_validateFlag a this) = this.
Proof.
  unfold _validateFlag, bind, read.
  destruct (includes a (values (FLAGS this))); reflexivity.
Qed.

Lemma forEach_validate_members (this : FlagsManager) (args : list Z) :
  (forall a, In a args -> defined_flag this a) ->
  forEach (fun flag => _validateFlag flag) args this = (Normal tt, this).
Proof.
  induction args as [| a args IH]; intros Hall; [reflexivity |].
  cbn [forEach]. unfold bind at 1.
  rewrite validate_member by (apply Hall; left; reflexivity).
  apply IH. intros b Hb. apply Hall. right. exact Hb.
Qed.

(** The first argument that is not a member is the one reported. *)
Lemma forEach_validate_stranger (this : FlagsManager) (args : list Z) (v : Z) :
  find (fun a => negb (includes a (values (FLAGS this)))) args = Some v ->
  forEach (fun flag => _validateFlag flag) args this
  = (Throw (InvalidFlag v), this).
Proof.
  induction args as [| a args IH]; intros Hfind; [discriminate |].
  cbn [find] in Hfind. cbn [forEach]. unfold bind at 1.
  destruct (includes a (values (FLAGS this))) eqn:Hin; cbn [negb] in Hfind.
  - rewrite validate_member by (apply includes_In; exact Hin).
    apply IH. exact Hfind.
  - injection Hfind as <-.
    rewrite validate_stranger by (apply includes_not_In; exact Hin).
    reflexivity.
Qed.

Lemma setFlags_members (this : FlagsManager) (args : list Z) :
  (forall a, In a args -> defined_flag this a) ->
  setFlags args this
  = (Normal tt, mkFlagsManager (combine (flags this) args) (FLAGS this)).
Proof.
  intros Hall. unfold setFlags. unfold bind at 1.
  rewrite forEach_validate_members by exact Hall. reflexivity.
Qed.

Lemma isFlagSet_member (this : FlagsManager) (a : Z) :
  defined_flag this a ->
  isFlagSet a this = (Normal (negb (band (flags this) a =? 0)), this).
Proof.
  intros Ha. unfold isFlagSet. unfold bind at 1.
  rewrite validate_member by exact Ha. reflexivity.
Qed.

Lemma toggleFlag_member (this : FlagsManager) (a : Z) :
  defined_flag this a ->
  toggleFlag a this
  = (Normal tt, mkFlagsManager (bxor (flags this) a) (FLAGS this)).
Proof.
  intros Ha. unfold toggleFlag. unfold bind at 1.
  rewrite validate_member by exact Ha. reflexivity.
Qed.

Lemma unsetFlag_member (this : FlagsManager) (a : Z) :
  defined_flag this a ->
  unsetFlag a this
  = (Normal tt, mkFlagsManager (band (flags this) (bnot a)) (FLAGS this)).
Proof.
  intros Ha. unfold unsetFlag. unfold bind at 1.
  rewrite validate_member by exact Ha. reflexivity.
Qed.

Lemma isFlagSet_stranger (this : FlagsManager) (a : Z) :
  ~ defined_flag this a -> isFlagSet a this = (Throw (InvalidFlag a), this).
Proof.
  intros Ha. unfold isFlagSet. unfold bind at 1.
  rewrite validate_stranger by exact Ha. reflexivity.
Qed.

Lemma toggleFlag_stranger (this : FlagsManager) (a : Z) :
  ~ defined_flag this a -> toggleFlag a this = (Throw (InvalidFlag a), this).
Proof.
  intros Ha. unfold toggleFlag. unfold bind at 1.
  rewrite validate_stranger by exact Ha. reflexivity.
Qed.

Lemma unsetFlag_stranger (this : FlagsManager) (a : Z) :
  ~ defined_flag this a -> unsetFlag a this = (Throw (InvalidFlag a), this).
Proof.
  intros Ha. unfold unsetFlag. unfold bind at 1.
  rewrite validate_stranger by exact Ha. reflexivity.
Qed.

Lemma defined_flag_dec (this : FlagsManager) (a : Z) :
  {defined_flag this a} + {~ defined_flag this a}.
Proof. apply (in_dec Z.eq_dec). Qed.

End MethodEquations.

(* ------------------------------------------------------------------ *)
(** ** Objects: reading back what was assigned *)

Section ObjectFacts.

Lemma get_In_values (k : string) (o : object) (v : Z) :
  get k o = Some v -> In v (values o).
Proof.
  induction o as [| [k' v'] o IH]; cbn [get values map snd]; [discriminate |].
  destruct (String.eqb k k').
  - intros [= ->]. left; reflexivity.
  - intros H. right. apply IH. exact H.
Qed.

Lemma keys_get (k : string) (o : object) :
  In k (keys o) -> exists v, get k o = Some v.
Proof.
  induction o as [| [k' v'] o IH]; cbn [keys map fst get In]; [tauto |].
  intros [-> | Hin].
  - rewrite String.eqb_refl. eauto.
  - destruct (String.eqb k k'); [eauto | apply IH; exact Hin].
Qed.

Lemma get_update_same (k : string) (v : Z) (o : object) :
  has k o = true -> get k (update k v o) = Some v.
Proof.
  unfold has.
  induction o as [| [k' v'] o IH]; cbn [get update]; [discriminate |].
  destruct (String.eqb k k') eqn:E; cbn [get]; rewrite E; [reflexivity |].
  exact IH.
Qed.

Lemma get_update_other (k k' : string) (v : Z) (o : object) :
  k' <> k -> get k' (update k v o) = get k' o.
Proof.
  intros Hne.
  induction o as [| [k1 v1] o IH]; cbn [get update]; [reflexivity |].
  destruct (String.eqb k k1) eqn:E; cbn [get].
  - apply String.eqb_eq in E. subst k1.
    apply String.eqb_neq in Hne. rewrite Hne. reflexivity.
  - rewrite IH. reflexivity.
Qed.

Lemma values_update (k : string) (v x : Z) (o : object) :
  In x (values (update k v o)) -> x = v \/ In x (values o).
Proof.
  induction o as [| [k1 v1] o IH]; cbn [update values map snd In]; [tauto |].
  destruct (String.eqb k k1); cbn [map snd In].
  - intros [<- | H]; [left; reflexivity | right; right; exact H].
  - intros [<- | H]; [right; left; reflexivity |].
    destruct (IH H) as [-> | H']; [left; reflexivity | right; right; exact H'].
Qed.

Lemma get_add_index_same (i : N) (k : string) (v : Z) (o : object) :
  get k o = None -> get k (add_index i k v o) = Some v.
Proof.
  induction o as [| [k1 v1] o IH]; cbn [get add_index].
  - rewrite String.eqb_refl. reflexivity.
  - destruct (String.eqb k k1) eqn:E; [discriminate |]. intros Hnone.
    destruct (array_index k1) as [j |];
      [destruct (j <? i)%N |]; cbn [get]; rewrite ?E, ?String.eqb_refl;
      auto.
Qed.

Lemma get_add_index_other (i : N) (k k' : string) (v : Z) (o : object) :
  k' <> k -> get k' (add_index i k v o) = get k' o.
Proof.
  intros Hne. apply String.eqb_neq in Hne.
  induction o as [| [k1 v1] o IH]; cbn [get add_index].
  - rewrite Hne. reflexivity.
  - destruct (array_index k1) as [j |];
      [destruct (j <? i)%N |]; cbn [get]; rewrite ?Hne, ?IH; reflexivity.
Qed.

Lemma values_add_index (i : N) (k : string) (v x : Z) (o : object) :
  In x (values (add_index i k v o)) -> x = v \/ In x (values o).
Proof.
  induction o as [| [k1 v1] o IH]; cbn [add_index values map snd In].
  - intros [<- | []]. left; reflexivity.
  - destruct (array_index k1) as [j |];
      [destruct (j <? i)%N |]; cbn [map snd In].
    + intros [<- | H]; [right; left; reflexivity |].
      destruct (IH H) as [-> | H']; [left; reflexivity | right; right; exact H'].
    + intros [<- | H]; [left; reflexivity | right; exact H].
    + intros [<- | H]; [left; reflexivity | right; exact H].
Qed.

Lemma get_app_same (k : string) (v : Z) (o : object) :
  get k o = None -> get k (o ++ [(k, v)]) = Some v.
Proof.
  induction o as [| [k1 v1] o IH]; cbn [get app].
  - rewrite String.eqb_refl. reflexivity.
  - destruct (String.eqb k k1); [discriminate | exact IH].
Qed.

Lemma get_app_other (k k' : string) (v : Z) (o : object) :
  k' <> k -> get k' (o ++ [(k, v)]) = get k' o.
Proof.
  intros Hne. apply String.eqb_neq in Hne.
  induction o as [| [k1 v1] o IH]; cbn [get app].
  - rewrite Hne. reflexivity.
  - rewrite IH. reflexivity.
Qed.

(** Reading the key just assigned. *)
Lemma get_set_same (k : string) (v : Z) (o : object) :
  k <> "__proto__"%string -> get k (set k v o) = Some v.
Proof.
  intros Hk. apply String.eqb_neq in Hk. unfold set. rewrite Hk.
  destruct (has k o) eqn:Hhas.
  - apply get_update_same. exact Hhas.
  - assert (Hnone : get k o = None).
    { unfold has in Hhas. destruct (get k o); [discriminate | reflexivity]. }
    destruct (array_index k).
    + apply get_add_index_same. exact Hnone.
    + apply get_app_same. exact Hnone.
Qed.

(** Reading any other key. *)
Lemma get_set_other (k k' : string) (v : Z) (o : object) :
  k' <> k -> get k' (set k v o) = get k' o.
Proof.
  intros Hne. unfold set.
  destruct (String.eqb k "__proto__"); [reflexivity |].
  destruct (has k o).
  - apply get_update_other. exact Hne.
  - destruct (array_index k).
    + apply get_add_index_other. exact Hne.
    + apply get_app_other. exact Hne.
Qed.

Lemma values_set (k : string) (v x : Z) (o : object) :
  In x (values (set k v o)) -> x = v \/ In x (values o).
Proof.
  unfold set.
  destruct (String.eqb k "__proto__"); [right; assumption |].
  destruct (has k o).
  - apply values_update.
  - destruct (array_index k).
    + apply values_add_index.
    + unfold values. rewrite map_app. intros H.
      apply in_app_or in H. destruct H as [H | [<- | []]]; auto.
Qed.

End ObjectFacts.

(* ------------------------------------------------------------------ *)
(** ** The flag definitions the constructor builds *)

Section FlagDefinitions.

Lemma reduce_get_absent (names : list string) (index : Z) (acc : object)
      (name : string) :
  ~ In name names ->
  get name (reduce_from assign_bit index names acc) = get name acc.
Proof.
  revert index acc.
  induction names as [| x names IH]; intros index acc Hnot; [reflexivity |].
  cbn [reduce_from]. rewrite IH by (intros H; apply Hnot; right; exact H).
  apply get_set_other. intros ->. apply Hnot. left; reflexivity.
Qed.

(** A name reads back the bit of its last position in the list. *)
Lemma reduce_get_last (names : list string) (index : Z) (acc : object)
      (N : nat) (name : string) :
  nth_error names N = Some name ->
  name <> "__proto__"%string ->
  (forall N', (N < N')%nat -> nth_error names N' <> Some name) ->
  get name (reduce_from assign_bit index names acc)
  = Some (shl 1 (index + Z.of_nat N)).
Proof.
  revert index acc N.
  induction names as [| x names IH]; intros index acc N Hnth Hproto Hlast.
  - destruct N; discriminate.
  - cbn [reduce_from]. destruct N as [| N].
    + cbn in Hnth. injection Hnth as ->.
      rewrite reduce_get_absent.
      * unfold assign_bit. rewrite get_set_same by exact Hproto.
        rewrite Z.add_0_r. reflexivity.
      * intros Hin. apply In_nth_error in Hin. destruct Hin as [j Hj].
        apply (Hlast (S j)); [lia | exact Hj].
    + cbn in Hnth. rewrite (IH (index + 1) _ N Hnth Hproto).
      * f_equal. f_equal. lia.
      * intros N' HN'. apply (Hlast (S N')). lia.
Qed.

Lemma reduce_values (names : list string) (index : Z) (acc : object) (x : Z) :
  In x (values (reduce_from assign_bit index names acc)) ->
  In x (values acc) \/
  exists N, (N < List.length names)%nat /\ x = shl 1 (index + Z.of_nat N).
Proof.
  revert index acc.
  induction names as [| y names IH]; intros index acc Hx; [left; exact Hx |].
  cbn [reduce_from] in Hx. apply IH in Hx. destruct Hx as [Hx | [N [HN ->]]].
  - apply values_set in Hx. destruct Hx as [-> | Hx]; [| left; exact Hx].
    right. exists 0%nat. cbn [List.length]. split; [lia |].
    rewrite Z.add_0_r. reflexivity.
  - right. exists (S N). cbn [List.length]. split; [lia |]. f_equal. lia.
Qed.

(** The shift count only matters modulo 32. *)
Lemma shl_1_mod (k : Z) : shl 1 k = shl 1 (k mod 32).
Proof.
  apply Int32_bits_inj; try apply shl_range.
  intros n Hn. rewrite !shl_1_testbit by exact Hn.
  rewrite Z.mod_mod by lia. reflexivity.
Qed.

Lemma constructor_custom (names : list string) :
  constructor (Some names)
  = Normal (mkFlagsManager 0 (reduce assign_bit names [])).
Proof. reflexivity. Qed.

Lemma constructor_default :
  constructor None = Normal (mkFlagsManager 0 DEFAULT_FLAGS).
Proof. reflexivity. Qed.

(** Every value of constructed flag definitions is [1 << i] for a bit
    position [i] of the 32. *)
Lemma constructed_values (o : object) (a : Z) :
  constructed o -> In a (values o) ->
  exists i, 0 <= i < 32 /\ a = shl 1 i.
Proof.
  intros [[names |] [this0 [Hnew <-]]] Ha.
  - rewrite constructor_custom in Hnew. injection Hnew as <-.
    cbn [FLAGS] in Ha. apply reduce_values in Ha.
    destruct Ha as [[] | [N [_ ->]]].
    exists (Z.of_nat N mod 32). split.
    + apply Z.mod_pos_bound; lia.
    + rewrite Z.add_0_l. apply shl_1_mod.
  - rewrite constructor_default in Hnew. injection Hnew as <-.
    cbn [FLAGS DEFAULT_FLAGS values map snd In] in Ha.
    repeat (destruct Ha as [<- | Ha];
            [eexists; split; [| reflexivity]; lia |]).
    destruct Ha.
Qed.

End FlagDefinitions.

(* ------------------------------------------------------------------ *)
(** ** Flag values and the bits of the register *)

Section FlagBits.

Lemma shift_count (k : Z) : Z.land (toUint32 k) 31 = k mod 32.
Proof.
  unfold toUint32. change 31 with (Z.ones 5). rewrite Z.land_ones by lia.
  change (2 ^ 32) with (2 ^ 5 * 2 ^ 27).
  rewrite Z.rem_mul_r by lia.
  rewrite Z.mul_comm, Z.mod_add by lia.
  rewrite Z.mod_mod by lia. reflexivity.
Qed.

Lemma bit_of_shl (i : Z) : 0 <= i < 32 -> bit_of (shl 1 i) = i.
Proof.
  intros Hi. unfold bit_of, shl. rewrite shift_count.
  rewrite (Z.mod_small i 32) by lia.
  change (toInt32 1) with 1. rewrite Z.shiftl_1_l.
  unfold toUint32 at 1. rewrite toInt32_mod.
  assert (2 ^ i < 2 ^ 32) by (apply Z.pow_lt_mono_r; lia).
  rewrite Z.mod_small by lia.
  apply Z.log2_pow2; lia.
Qed.

Lemma shl_1_testbit_small (i n : Z) :
  0 <= i < 32 -> 0 <= n < 32 -> Z.testbit (shl 1 i) n = (n =? i).
Proof.
  intros Hi Hn. rewrite shl_1_testbit by exact Hn.
  rewrite Z.mod_small by lia. reflexivity.
Qed.

(** The test of [isFlagSet] on [1 << i] reads bit [i] of the register. *)
Lemma flag_test (r i : Z) :
  0 <= i < 32 -> negb (band r (shl 1 i) =? 0) = Z.testbit r i.
Proof.
  intros Hi.
  destruct (Z.eqb_spec (band r (shl 1 i)) 0) as [Hz | Hnz]; cbn [negb].
  - assert (Hbit : Z.testbit (band r (shl 1 i)) i = false)
      by (rewrite Hz; apply Z.bits_0).
    rewrite band_testbit, shl_1_testbit_small, Z.eqb_refl, andb_true_r in Hbit
      by lia.
    symmetry; exact Hbit.
  - destruct (Z.testbit r i) eqn:Hbit; [reflexivity |].
    exfalso. apply Hnz. apply Int32_zero_bits; [apply band_range |].
    intros n Hn. rewrite band_testbit, shl_1_testbit_small by lia.
    destruct (Z.eqb_spec n i) as [-> | _];
      [rewrite Hbit; reflexivity | apply andb_false_r].
Qed.

Lemma combine_testbit (fl : list Z) (init n : Z) :
  0 <= n < 32 ->
  Z.testbit (combine init fl) n
  = Z.testbit init n || existsb (fun f => Z.testbit f n) fl.
Proof.
  intros Hn. revert init.
  induction fl as [| f fl IH]; intros init; cbn [combine fold_left existsb].
  - rewrite orb_false_r. reflexivity.
  - fold (combine (bor init f) fl). rewrite IH, bor_testbit by exact Hn.
    rewrite orb_assoc. reflexivity.
Qed.

Lemma combine_range (fl : list Z) (init : Z) :
  Int32 init -> Int32 (combine init fl).
Proof.
  revert init.
  induction fl as [| f fl IH]; intros init Hinit; cbn [combine fold_left].
  - exact Hinit.
  - apply IH. apply bor_range.
Qed.

Lemma bxor_twice (r a : Z) : Int32 r -> bxor (bxor r a) a = r.
Proof.
  intros Hr. apply Int32_bits_inj; [apply bxor_range | exact Hr |].
  intros n Hn. rewrite !bxor_testbit by exact Hn.
  rewrite xorb_assoc, xorb_nilpotent, xorb_false_r. reflexivity.
Qed.

End FlagBits.

(* ------------------------------------------------------------------ *)
(** ** What every call preserves *)

Section Invariant.

Lemma filter_cb_pure {A : Type} (p : A -> M bool) (q : A -> bool)
      (xs : list A) (this : FlagsManager) :
  (forall x, In x xs -> p x this = (Normal (q x), this)) ->
  filter_cb p xs this = (Normal (filter q xs), this).
Proof.
  induction xs as [| x xs IH]; intros Hp; [reflexivity |].
  cbn [filter_cb filter]. unfold bind at 1.
  rewrite Hp by (left; reflexivity).
  unfold bind at 1. rewrite IH by (intros y Hy; apply Hp; right; exact Hy).
  reflexivity.
Qed.

(** [getActiveFlags] never throws: every name it tries is an own property,
    and its value passes [_validateFlag]. *)
Lemma getActiveFlags_filter (this : FlagsManager) :
  getActiveFlags this
  = (Normal (filter (fun name =>
                       match get name (FLAGS this) with
                       | Some v => negb (band (flags this) v =? 0)
                       | None => false
                       end)
                    (keys (FLAGS this))),
     this).
Proof.
  unfold getActiveFlags. unfold bind at 1. cbn [read].
  apply filter_cb_pure. intros name Hname.
  destruct (keys_get _ _ Hname) as [v Hv]. rewrite Hv.
  apply isFlagSet_member. unfold defined_flag.
  apply get_In_values with (k := name). exact Hv.
Qed.

Lemma find_stranger_none (this : FlagsManager) (args : list Z) :
  find (fun a => negb (includes a (values (FLAGS this)))) args = None ->
  forall a, In a args -> defined_flag this a.
Proof.
  intros Hfind a Ha.
  pose proof (find_none _ _ Hfind a Ha) as Hmem. cbn beta in Hmem.
  apply negb_false_iff in Hmem. apply includes_In. exact Hmem.
Qed.

Lemma setFlags_stranger (this : FlagsManager) (args : list Z) (v : Z) :
  find (fun a => negb (includes a (values (FLAGS this)))) args = Some v ->
  setFlags args this = (Throw (InvalidFlag v), this).
Proof.
  intros Hfind. unfold setFlags. unfold bind at 1.
  rewrite (forEach_validate_stranger _ _ _ Hfind). reflexivity.
Qed.

Lemma isFlagSet_keeps_this (this : FlagsManager) (a : Z) :
  snd (isFlagSet a this) = this.
Proof.
  destruct (defined_flag_dec this a) as [Hin | Hout].
  - rewrite isFlagSet_member by exact Hin. reflexivity.
  - rewrite isFlagSet_stranger by exact Hout. reflexivity.
Qed.

Lemma perform_covered (c : call) (this : FlagsManager) :
  covered (FLAGS this) (flags this) ->
  FLAGS (snd (perform c this)) = FLAGS this /\
  covered (FLAGS this) (flags (snd (perform c this))).
Proof.
  intros [Hrange Hbits].
  destruct c as [fl | a | a | a | | | fl]; cbn [perform].
  - destruct (find (fun a => negb (includes a (values (FLAGS this)))) fl)
      as [v |] eqn:Hfind.
    + rewrite (setFlags_stranger _ _ _ Hfind). cbn [snd]. split; [reflexivity |].
      split; assumption.
    + pose proof (find_stranger_none _ _ Hfind) as Hall.
      rewrite setFlags_members by exact Hall. cbn [snd flags FLAGS].
      split; [reflexivity |]. split; [apply combine_range; exact Hrange |].
      intros n Hn Hset. rewrite combine_testbit in Hset by exact Hn.
      apply orb_true_iff in Hset. destruct Hset as [Hold | Hnew].
      * apply Hbits; assumption.
      * apply existsb_exists in Hnew. destruct Hnew as [f [Hf Hfn]].
        exists f. split; [apply Hall; exact Hf | exact Hfn].
  - unfold bind.
    pose proof (isFlagSet_keeps_this this a) as Hkeep.
    destruct (isFlagSet a this) as [[b | e] this']; cbn [snd] in Hkeep;
      subst this'; cbn [ret snd]; (split; [reflexivity | split; assumption]).
  - destruct (defined_flag_dec this a) as [Hin | Hout].
    + rewrite toggleFlag_member by exact Hin. cbn [snd flags FLAGS].
      split; [reflexivity |]. split; [apply bxor_range |].
      intros n Hn Hset. rewrite bxor_testbit in Hset by exact Hn.
      destruct (Z.testbit (flags this) n) eqn:Hold.
      * apply Hbits; assumption.
      * exists a. split; [exact Hin |]. rewrite <- Hset. reflexivity.
    + rewrite toggleFlag_stranger by exact Hout. cbn [snd].
      split; [reflexivity | split; assumption].
  - destruct (defined_flag_dec this a) as [Hin | Hout].
    + rewrite unsetFlag_member by exact Hin. cbn [snd flags FLAGS].
      split; [reflexivity |]. split; [apply band_range |].
      intros n Hn Hset. rewrite band_testbit in Hset by exact Hn.
      apply andb_true_iff in Hset. apply Hbits; tauto.
    + rewrite unsetFlag_stranger by exact Hout. cbn [snd].
      split; [reflexivity | split; assumption].
  - unfold bind. rewrite getActiveFlags_filter. cbn [ret snd].
    split; [reflexivity | split; assumption].
  - cbn [clearFlags assign_flags snd flags FLAGS].
    split; [reflexivity |]. split; [unfold Int32; lia |].
    intros n _ Hset. rewrite Z.bits_0 in Hset. discriminate.
  - cbn. split; [reflexivity | split; assumption].
Qed.

Lemma after_calls_covered (cs : list call) (this : FlagsManager) :
  covered (FLAGS this) (flags this) ->
  FLAGS (after_calls cs this) = FLAGS this /\
  covered (FLAGS this) (flags (after_calls cs this)).
Proof.
  revert this.
  induction cs as [| c cs IH]; intros this Hcov; cbn [after_calls fold_left].
  - split; [reflexivity | exact Hcov].
  - destruct (perform_covered c this Hcov) as [Hsame Hcov'].
    fold (after_calls cs (snd (perform c this))).
    rewrite <- Hsame in Hcov'.
    destruct (IH _ Hcov') as [Hsame' Hcov''].
    rewrite Hsame in Hsame', Hcov''. split; assumption.
Qed.

Lemma constructor_covered (customFlagNames : option (list string))
      (this0 : FlagsManager) :
  constructor customFlagNames = Normal this0 ->
  covered (FLAGS this0) (flags this0).
Proof.
  intros Hnew.
  assert (Hzero : flags this0 = 0).
  { destruct customFlagNames; cbn in Hnew; injection Hnew as <-; reflexivity. }
  rewrite Hzero. split; [unfold Int32; lia |].
  intros n _ Hset. rewrite Z.bits_0 in Hset. discriminate.
Qed.

(** Whatever is called after the constructor, the instance stays one with
    constructed flag definitions and a signed 32-bit register. *)
Lemma after_calls_instance (customFlagNames : option (list string))
      (this0 : FlagsManager) (cs : list call) :
  constructor customFlagNames = Normal this0 ->
  instance (after_calls cs this0).
Proof.
  intros Hnew.
  destruct (after_calls_covered cs this0 (constructor_covered _ _ Hnew))
    as [Hsame [Hrange _]].
  split; [| exact Hrange].
  rewrite Hsame. exists customFlagNames, this0. split; [exact Hnew | reflexivity].
Qed.

End Invariant.

(* ------------------------------------------------------------------ *)
(** ** setFlags *)

Section SetFlags.

Lemma first_stranger (this : FlagsManager) (args : list Z) :
  (exists a, In a args /\ ~ defined_flag this a) ->
  exists v,
    find (fun a => negb (includes a (values (FLAGS this)))) args = Some v /\
    In v args /\ ~ defined_flag this v.
Proof.
  intros [a [Ha Hout]].
  destruct (find (fun a => negb (includes a (values (FLAGS this)))) args)
    as [v |] eqn:Hfind.
  - exists v. split; [reflexivity |].
    apply find_some in Hfind. destruct Hfind as [Hv Hneg].
    split; [exact Hv |].
    apply negb_true_iff in Hneg. apply includes_not_In. exact Hneg.
  - exfalso. apply Hout. apply (find_stranger_none _ _ Hfind). exact Ha.
Qed.

(** For a safe integer the message of [InvalidFlag] is spelled out. *)
Lemma InvalidFlag_safe (v : Z) :
  safe_integer v = true ->
  InvalidFlag v = Error (Text ("Invalid flag: " ++ decimal v)).
Proof.
  intros Hsafe. unfold InvalidFlag, template, toString.
  rewrite Hsafe. reflexivity.
Qed.

Lemma Int32_safe (v : Z) : Int32 v -> safe_integer v = true.
Proof.
  unfold Int32, safe_integer. intros Hv. apply Z.leb_le. lia.
Qed.

End SetFlags.

(** C2.  Whatever the register holds, when some argument of [setFlags] is
    not a value of the flag definitions the call throws the error
    [new Error(`Invalid flag: ${v}`)] for an offending argument [v] (the
    first one in argument order) and the instance is exactly what it was:
    nothing is applied.  When [v] is a safe integer the message is
    "Invalid flag: " followed by the decimal digits of [v].  On a default
    register, [setFlags(1 << 15)] throws "Invalid flag: 32768" and leaves the
    register as it was. *)
Theorem setFlags_invalid_leaves_register (this : FlagsManager) (args : list Z) :
  (exists a, In a args /\ ~ defined_flag this a) ->
  (exists v,
      In v args /\ ~ defined_flag this v /\
      find (fun a => negb (includes a (values (FLAGS this)))) args = Some v /\
      setFlags args this = (Throw (InvalidFlag v), this) /\
      (safe_integer v = true ->
       InvalidFlag v = Error (Text ("Invalid flag: " ++ decimal v)))) /\
  (forall r,
      setFlags [shl 1 15] (mkFlagsManager r DEFAULT_FLAGS)
      = (Throw (Error (Text "Invalid flag: 32768")), mkFlagsManager r DEFAULT_FLAGS)).
Proof.
  intros Hbad. split.
  - destruct (first_stranger this args Hbad) as [v [Hfind [Hin Hout]]].
    exists v. split; [exact Hin |]. split; [exact Hout |].
    split; [exact Hfind |].
    split; [apply setFlags_stranger; exact Hfind | apply InvalidFlag_safe].
  - intros r.
    change (Error (Text "Invalid flag: 32768")) with (InvalidFlag (shl 1 15)).
    apply setFlags_stranger. reflexivity.
Qed.

Lemma setFlags_invalid_leaves_register_witness :
  (exists a, In a [1; shl 1 15; 4] /\
             ~ defined_flag (mkFlagsManager 2 DEFAULT_FLAGS) a) /\
  setFlags [1; shl 1 15; 4] (mkFlagsManager 2 DEFAULT_FLAGS)
  = (Throw (Error (Text "Invalid flag: 32768")), mkFlagsManager 2 DEFAULT_FLAGS).
Proof.
  assert (Hbad : exists a, In a [1; shl 1 15; 4] /\
                           ~ defined_flag (mkFlagsManager 2 DEFAULT_FLAGS) a).
  { exists (shl 1 15). split.
    - right; left; reflexivity.
    - apply includes_not_In. reflexivity. }
  split; [exact Hbad |].
  destruct (setFlags_invalid_leaves_register _ _ Hbad)
    as [[v [_ [_ [Hfind [Hthrow _]]]]] _].
  injection Hfind as <-. exact Hthrow.
Defined.

(** C9.  [setFlags()] with no argument validates nothing, returns normally
    and leaves the register, whatever it holds, as it was. *)
Theorem setFlags_no_argument (this : FlagsManager) :
  setFlags [] this = (Normal tt, this).
Proof. destruct this as [r o]. reflexivity. Qed.

(* ------------------------------------------------------------------ *)
(** ** areFlagsSet *)

(** C3.  For any register and any integer arguments, members of the flag
    definitions or not, [areFlagsSet] returns normally without touching the
    instance; its result is the comparison of [register & mask] with [mask],
    where [mask] is the arguments folded with [|] from 0; that is, it is true
    exactly when every bit (of the 32) set in some argument is set in the
    register.  Without arguments the result is true. *)
Theorem areFlagsSet_spec (this : FlagsManager) (args : list Z) :
  let mask := combine 0 args in
  areFlagsSet args this = (Normal (band (flags this) mask =? mask), this) /\
  ((band (flags this) mask =? mask) = true <->
   (forall f n, In f args -> 0 <= n < 32 ->
                Z.testbit f n = true -> Z.testbit (flags this) n = true)) /\
  areFlagsSet [] this = (Normal true, this).
Proof.
  cbv zeta. split; [reflexivity |]. split.
  2:{ unfold areFlagsSet, bind, read, ret. cbn [fold_left].
      unfold band. change (toInt32 0) with 0. rewrite Z.land_0_r.
      reflexivity. }
  assert (Hmask : Int32 (combine 0 args))
    by (apply combine_range; unfold Int32; lia).
  rewrite Z.eqb_eq. split.
  - intros Heq f n Hf Hn Hbit.
    assert (Hm : Z.testbit (combine 0 args) n = true).
    { rewrite combine_testbit by exact Hn. rewrite Z.bits_0. cbn [orb].
      apply existsb_exists. exists f. split; assumption. }
    rewrite <- Heq in Hm. rewrite band_testbit in Hm by exact Hn.
    apply andb_true_iff in Hm. tauto.
  - intros Hall. apply Int32_bits_inj; [apply band_range | exact Hmask |].
    intros n Hn. rewrite band_testbit by exact Hn.
    destruct (Z.testbit (combine 0 args) n) eqn:Hm; [| apply andb_false_r].
    rewrite combine_testbit in Hm by exact Hn.
    rewrite Z.bits_0 in Hm. cbn [orb] in Hm.
    apply existsb_exists in Hm. destruct Hm as [f [Hf Hbit]].
    rewrite (Hall f n Hf Hn Hbit). reflexivity.
Qed.

(* ------------------------------------------------------------------ *)
(** ** The default scenario *)

(** C6.  On a default register just constructed: [setFlags(VERIFIED_EMAIL,
    INVITED)], that is [setFlags(1, 4)], leaves 5 in the register;
    [isFlagSet(VERIFIED_EMAIL)] is then true and [isFlagSet(ACCEPTED)], that
    is [isFlagSet(8)], false; [toggleFlag(VERIFIED_EMAIL)] leaves 4 and
    [unsetFlag(INVITED)] after it leaves 0. *)
Theorem default_scenario :
  exists this0 this1 this2 this3,
    constructor None = Normal this0 /\
    flags this0 = 0 /\
    get "VERIFIED_EMAIL" (FLAGS this0) = Some 1 /\
    get "INVITED" (FLAGS this0) = Some 4 /\
    get "ACCEPTED" (FLAGS this0) = Some 8 /\
    setFlags [1; 4] this0 = (Normal tt, this1) /\
    flags this1 = 5 /\
    isFlagSet 1 this1 = (Normal true, this1) /\
    isFlagSet 8 this1 = (Normal false, this1) /\
    toggleFlag 1 this1 = (Normal tt, this2) /\
    flags this2 = 4 /\
    unsetFlag 4 this2 = (Normal tt, this3) /\
    flags this3 = 0.
Proof.
  exists (mkFlagsManager 0 DEFAULT_FLAGS), (mkFlagsManager 5 DEFAULT_FLAGS),
         (mkFlagsManager 4 DEFAULT_FLAGS), (mkFlagsManager 0 DEFAULT_FLAGS).
  repeat split.
Qed.

(* ------------------------------------------------------------------ *)
(** ** toggleFlag and unsetFlag *)

(** C4.  On an instance, for a value [a] of its flag definitions:
    [toggleFlag(a)] returns normally; [a] is [1 << i] for one bit position
    [i], and of the 32 bits of the register the call inverts bit [i] and
    keeps every other one; calling it twice gives back the instance as it
    was before the first call. *)
Theorem toggleFlag_flips_one_bit (this : FlagsManager) (a : Z) :
  instance this ->
  defined_flag this a ->
  exists i,
    0 <= i < 32 /\ a = shl 1 i /\
    toggleFlag a this
    = (Normal tt, mkFlagsManager (bxor (flags this) a) (FLAGS this)) /\
    (forall n, 0 <= n < 32 ->
               Z.testbit (bxor (flags this) a) n
               = if n =? i then negb (Z.testbit (flags this) n)
                 else Z.testbit (flags this) n) /\
    (toggleFlag a ;; toggleFlag a) this = (Normal tt, this).
Proof.
  intros [Hcons Hrange] Ha.
  destruct (constructed_values _ _ Hcons Ha) as [i [Hi ->]].
  exists i. split; [exact Hi |]. split; [reflexivity |].
  split; [apply toggleFlag_member; exact Ha |]. split.
  - intros n Hn. rewrite bxor_testbit, shl_1_testbit_small by lia.
    destruct (n =? i); [apply xorb_true_r | apply xorb_false_r].
  - unfold bind. rewrite toggleFlag_member by exact Ha.
    rewrite toggleFlag_member by exact Ha. cbn [flags FLAGS].
    rewrite bxor_twice by exact Hrange. rewrite this_eta. reflexivity.
Qed.

Lemma toggleFlag_flips_one_bit_witness :
  instance (mkFlagsManager 5 DEFAULT_FLAGS) /\
  defined_flag (mkFlagsManager 5 DEFAULT_FLAGS) 4 /\
  toggleFlag 4 (mkFlagsManager 5 DEFAULT_FLAGS)
  = (Normal tt, mkFlagsManager 1 DEFAULT_FLAGS) /\
  (toggleFlag 4 ;; toggleFlag 4) (mkFlagsManager 5 DEFAULT_FLAGS)
  = (Normal tt, mkFlagsManager 5 DEFAULT_FLAGS).
Proof.
  assert (Hinst : instance (mkFlagsManager 5 DEFAULT_FLAGS)).
  { split.
    - exists None, (mkFlagsManager 0 DEFAULT_FLAGS). split; reflexivity.
    - cbn [flags]. unfold Int32. lia. }
  assert (Hdef : defined_flag (mkFlagsManager 5 DEFAULT_FLAGS) 4).
  { apply includes_In. reflexivity. }
  split; [exact Hinst |]. split; [exact Hdef |].
  destruct (toggleFlag_flips_one_bit _ _ Hinst Hdef)
    as [i [_ [_ [Honce [_ Htwice]]]]].
  split; [exact Honce | exact Htwice].
Defined.

(** C5.  On an instance, for a value [a] of its flag definitions:
    [unsetFlag(a)] returns normally and stores [register & ~a]; [a] is
    [1 << i] for one bit position [i], and of the 32 bits of the register the
    call clears bit [i] and keeps every other one; after [setFlags(a)] and
    [unsetFlag(a)], [isFlagSet(a)] is false; and when [isFlagSet(a)] is false
    to begin with, [unsetFlag(a)] leaves the instance as it was. *)
Theorem unsetFlag_clears_one_bit (this : FlagsManager) (a : Z) :
  instance this ->
  defined_flag this a ->
  exists i,
    0 <= i < 32 /\ a = shl 1 i /\
    unsetFlag a this
    = (Normal tt, mkFlagsManager (band (flags this) (bnot a)) (FLAGS this)) /\
    (forall n, 0 <= n < 32 ->
               Z.testbit (band (flags this) (bnot a)) n
               = if n =? i then false else Z.testbit (flags this) n) /\
    (exists this', (setFlags [a] ;; unsetFlag a ;; isFlagSet a) this
                   = (Normal false, this')) /\
    (isFlagSet a this = (Normal false, this) ->
     unsetFlag a this = (Normal tt, this)).
Proof.
  intros [Hcons Hrange] Ha.
  destruct (constructed_values _ _ Hcons Ha) as [i [Hi ->]].
  assert (Hbits : forall r n, 0 <= n < 32 ->
            Z.testbit (band r (bnot (shl 1 i))) n
            = if n =? i then false else Z.testbit r n).
  { intros r n Hn.
    rewrite band_testbit, bnot_testbit, shl_1_testbit_small by lia.
    destruct (n =? i); [apply andb_false_r | apply andb_true_r]. }
  exists i. split; [exact Hi |]. split; [reflexivity |].
  split; [apply unsetFlag_member; exact Ha |].
  split; [apply Hbits |]. split.
  - eexists. unfold bind.
    rewrite setFlags_members
      by (intros b [<- | []]; exact Ha).
    rewrite unsetFlag_member by exact Ha.
    rewrite isFlagSet_member by exact Ha. cbn [flags FLAGS].
    rewrite flag_test by exact Hi. rewrite Hbits by lia.
    rewrite Z.eqb_refl. reflexivity.
  - intros Hclear. rewrite isFlagSet_member in Hclear by exact Ha.
    injection Hclear as Hclear. rewrite flag_test in Hclear by exact Hi.
    rewrite unsetFlag_member by exact Ha.
    replace (band (flags this) (bnot (shl 1 i))) with (flags this);
      [rewrite this_eta; reflexivity |].
    apply Int32_bits_inj; [exact Hrange | apply band_range |].
    intros n Hn. rewrite Hbits by exact Hn.
    destruct (Z.eqb_spec n i) as [-> | _]; [exact Hclear | reflexivity].
Qed.

Lemma unsetFlag_clears_one_bit_witness :
  instance (mkFlagsManager 5 DEFAULT_FLAGS) /\
  defined_flag (mkFlagsManager 5 DEFAULT_FLAGS) 4 /\
  unsetFlag 4 (mkFlagsManager 5 DEFAULT_FLAGS)
  = (Normal tt, mkFlagsManager 1 DEFAULT_FLAGS) /\
  exists this', (setFlags [4] ;; unsetFlag 4 ;; isFlagSet 4)
                  (mkFlagsManager 5 DEFAULT_FLAGS)
                = (Normal false, this').
Proof.
  assert (Hinst : instance (mkFlagsManager 5 DEFAULT_FLAGS)).
  { split.
    - exists None, (mkFlagsManager 0 DEFAULT_FLAGS). split; reflexivity.
    - cbn [flags]. unfold Int32. lia. }
  assert (Hdef : defined_flag (mkFlagsManager 5 DEFAULT_FLAGS) 4).
  { apply includes_In. reflexivity. }
  split; [exact Hinst |]. split; [exact Hdef |].
  destruct (unsetFlag_clears_one_bit _ _ Hinst Hdef)
    as [i [_ [_ [Honce [_ [Hafter _]]]]]].
  split; [exact Honce | exact Hafter].
Defined.

(* ------------------------------------------------------------------ *)
(** ** getActiveFlags and clearFlags *)

(** With constructed flag definitions, [getActiveFlags()] keeps, of the keys
    of the definitions in their order, those whose bit is set in the
    register; right after [clearFlags()] it keeps none. *)
Lemma getActiveFlags_active (this : FlagsManager) :
  constructed (FLAGS this) ->
  getActiveFlags this
  = (Normal (filter (flag_active this) (keys (FLAGS this))), this) /\
  clearFlags this = (Normal tt, mkFlagsManager 0 (FLAGS this)) /\
  (clearFlags ;; getActiveFlags) this
  = (Normal [], mkFlagsManager 0 (FLAGS this)).
Proof.
  intros Hcons.
  assert (Hactive : forall that, FLAGS that = FLAGS this ->
            getActiveFlags that
            = (Normal (filter (flag_active that) (keys (FLAGS that))), that)).
  { intros that Hsame. rewrite getActiveFlags_filter. f_equal. f_equal.
    apply filter_ext_in. intros name Hname. unfold flag_active.
    destruct (get name (FLAGS that)) as [v |] eqn:Hv; [| reflexivity].
    apply get_In_values in Hv. rewrite Hsame in Hv.
    destruct (constructed_values _ _ Hcons Hv) as [i [Hi ->]].
    rewrite bit_of_shl by exact Hi. apply flag_test. exact Hi. }
  split; [apply Hactive; reflexivity |]. split; [reflexivity |].
  unfold bind. cbn [clearFlags assign_flags].
  rewrite Hactive by reflexivity. cbn [FLAGS]. f_equal. f_equal.
  induction (keys (FLAGS this)) as [| name names IH]; [reflexivity |].
  cbn [filter]. unfold flag_active at 1. cbn [flags FLAGS].
  destruct (get name (FLAGS this)); [rewrite Z.bits_0 |]; exact IH.
Qed.

(* ------------------------------------------------------------------ *)
(** ** The register stays within the defined bits *)

Section DefaultBits.

Lemma default_values_low (v n : Z) :
  In v (values DEFAULT_FLAGS) -> 15 <= n < 32 -> Z.testbit v n = false.
Proof.
  intros Hv Hn.
  cbn [DEFAULT_FLAGS values map snd In] in Hv.
  repeat (destruct Hv as [<- | Hv];
          [rewrite shl_1_testbit_small by lia; apply Z.eqb_neq; lia |]).
  destruct Hv.
Qed.

Lemma covered_default_high (r n : Z) :
  covered DEFAULT_FLAGS r -> 15 <= n -> Z.testbit r n = false.
Proof.
  intros [Hrange Hbits] Hn.
  assert (Hlow : forall k, 15 <= k < 32 -> Z.testbit r k = false).
  { intros k Hk. destruct (Z.testbit r k) eqn:Hset; [| reflexivity].
    destruct (Hbits k ltac:(lia) Hset) as [v [Hv Hvk]].
    rewrite (default_values_low v k Hv Hk) in Hvk. discriminate. }
  destruct (Z_lt_le_dec n 32) as [Hsmall | Hbig].
  - apply Hlow. lia.
  - rewrite (Int32_testbit_sign r n Hrange) by lia. apply Hlow. lia.
Qed.

Lemma covered_default_bound (r : Z) :
  covered DEFAULT_FLAGS r -> 0 <= r < 2 ^ 15.
Proof.
  intros Hcov.
  assert (Hmod : r = r mod 2 ^ 15).
  { apply Z.bits_inj'. intros n Hn.
    rewrite Z.testbit_mod_pow2 by lia.
    destruct (Z.ltb_spec n 15) as [Hlt | Hge]; [reflexivity |].
    apply covered_default_high; assumption. }
  rewrite Hmod. apply Z.mod_pos_bound. lia.
Qed.

End DefaultBits.

(** C10.  On a default register, which starts at 0, after any sequence of
    calls of [setFlags], [toggleFlag], [unsetFlag] and [clearFlags] (and of
    the queries), whether each call returned normally or threw, the flag
    definitions are still the default ones and every set bit of the register
    is among the bits of their values: the register lies in [0, 2^15),
    [register & ~(2^15 - 1)] is 0, and [2^15 - 1] is the [|] of all the
    values. *)
Theorem default_register_within_defined_bits (cs : list call) :
  exists this0,
    constructor None = Normal this0 /\
    flags this0 = 0 /\
    FLAGS (after_calls cs this0) = DEFAULT_FLAGS /\
    combine 0 (values DEFAULT_FLAGS) = 2 ^ 15 - 1 /\
    0 <= flags (after_calls cs this0) < 2 ^ 15 /\
    band (flags (after_calls cs this0)) (bnot (2 ^ 15 - 1)) = 0 /\
    band (flags (after_calls cs this0))
         (bnot (combine 0 (values (FLAGS (after_calls cs this0))))) = 0.
Proof.
  exists (mkFlagsManager 0 DEFAULT_FLAGS).
  split; [reflexivity |]. split; [reflexivity |].
  destruct (after_calls_covered cs (mkFlagsManager 0 DEFAULT_FLAGS)
              (constructor_covered None _ eq_refl)) as [Hsame Hcov].
  cbn [FLAGS] in Hsame, Hcov.
  assert (Hmask : combine 0 (values DEFAULT_FLAGS) = 2 ^ 15 - 1)
    by reflexivity.
  assert (Hzero : band (flags (after_calls cs (mkFlagsManager 0 DEFAULT_FLAGS)))
                       (bnot (2 ^ 15 - 1)) = 0).
  { apply Int32_zero_bits; [apply band_range |].
    intros n Hn. rewrite band_testbit, bnot_testbit by exact Hn.
    destruct (Z_lt_le_dec n 15) as [Hlt | Hge].
    - change (2 ^ 15 - 1) with (Z.ones 15).
      rewrite Z.ones_spec_low by lia. apply andb_false_r.
    - rewrite (covered_default_high _ n Hcov Hge). reflexivity. }
  split; [exact Hsame |]. split; [exact Hmask |].
  split; [apply covered_default_bound; exact Hcov |].
  split; [exact Hzero |].
  rewrite Hsame, Hmask. exact Hzero.
Qed.

(* ------------------------------------------------------------------ *)
(** ** The constructor and createCustomFlags *)

(** C1, as the specification states it, fails: a list with a name twice and
    a list of 33 names are both accepted.  The repeated name keeps the bit of
    its last position, and the 33rd name gets the bit of the first. *)
Lemma constructor_accepts_malformed_names :
  (~ NoDup ["A"%string; "A"%string] /\
   constructor (Some ["A"%string; "A"%string])
   = Normal (mkFlagsManager 0 [("A"%string, 2)]) /\
   forall e, constructor (Some ["A"%string; "A"%string]) <> Throw e) /\
  (let names :=
     map (fun n => String "F" (decimal (Z.of_nat n))) (seq 0 33) in
   (32 < List.length names)%nat /\
   exists this,
     constructor (Some names) = Normal this /\
     get "F0" (FLAGS this) = Some 1 /\
     get "F32" (FLAGS this) = Some 1 /\
     forall e, constructor (Some names) <> Throw e).
Proof.
  split.
  - split; [| split].
    + intros Hnodup. inversion Hnodup as [| x l Hnotin _]. subst.
      apply Hnotin. left; reflexivity.
    + reflexivity.
    + intros e. discriminate.
  - cbv zeta. split; [cbn; lia |].
    eexists. split; [reflexivity |]. split; [reflexivity |].
    split; [reflexivity |]. intros e. discriminate.
Qed.

Section NeverProto.

Lemma set_never_proto (k : string) (v : Z) (o : object) :
  get "__proto__" (set k v o) = get "__proto__" o.
Proof.
  destruct (String.eqb_spec k "__proto__") as [-> | Hne].
  - unfold set. rewrite String.eqb_refl. reflexivity.
  - apply get_set_other. intros Heq. apply Hne. symmetry. exact Heq.
Qed.

Lemma reduce_never_proto (names : list string) (index : Z) (acc : object) :
  get "__proto__" (reduce_from assign_bit index names acc)
  = get "__proto__" acc.
Proof.
  revert index acc.
  induction names as [| x names IH]; intros index acc; [reflexivity |].
  cbn [reduce_from]. rewrite IH. apply set_never_proto.
Qed.

End NeverProto.

(** C1, amended.  Constructing a register from a list of custom names always
    succeeds, duplicates and more than 32 entries included; the register
    starts at 0, every value of the flag definitions is [1 << (N mod 32)]
    for a position [N] of the list, a name other than ["__proto__"] reads
    back the bit of its last position [N], which is [1 << (N mod 32)], and
    ["__proto__"] is never a name of the flag definitions. *)
Theorem constructor_custom_never_fails (names : list string) :
  exists this,
    constructor (Some names) = Normal this /\
    flags this = 0 /\
    (forall a, In a (values (FLAGS this)) ->
               exists N, (N < List.length names)%nat /\
                         a = shl 1 (Z.of_nat N mod 32)) /\
    (forall N name,
        nth_error names N = Some name ->
        name <> "__proto__"%string ->
        (forall N', (N < N')%nat -> nth_error names N' <> Some name) ->
        get name (FLAGS this) = Some (shl 1 (Z.of_nat N mod 32))) /\
    get "__proto__" (FLAGS this) = None.
Proof.
  exists (mkFlagsManager 0 (reduce assign_bit names [])).
  split; [reflexivity |]. split; [reflexivity |]. cbn [FLAGS].
  split; [| split; [| apply reduce_never_proto]].
  - intros a Ha. apply reduce_values in Ha.
    destruct Ha as [[] | [N [HN ->]]].
    exists N. split; [exact HN |]. rewrite Z.add_0_l. apply shl_1_mod.
  - intros N name Hnth Hproto Hlast.
    rewrite <- shl_1_mod. unfold reduce.
    rewrite (reduce_get_last names 0 [] N name Hnth Hproto Hlast).
    rewrite Z.add_0_l. reflexivity.
Qed.

Lemma constructor_custom_never_fails_witness :
  exists this,
    constructor (Some ["A"%string; "B"%string; "A"%string]) = Normal this /\
    get "A" (FLAGS this) = Some 4 /\
    get "B" (FLAGS this) = Some 2.
Proof.
  destruct (constructor_custom_never_fails ["A"%string; "B"%string; "A"%string])
    as [this [Hnew [_ [_ [Hget _]]]]].
  exists this. split; [exact Hnew |]. split.
  - apply (Hget 2%nat "A"%string).
    + reflexivity.
    + discriminate.
    + intros N' HN'.
      do 3 (destruct N' as [| N']; [first [lia | discriminate] |]).
      destruct N'; discriminate.
  - apply (Hget 1%nat "B"%string).
    + reflexivity.
    + discriminate.
    + intros N' HN'.
      do 3 (destruct N' as [| N']; [first [lia | discriminate] |]).
      destruct N'; discriminate.
Defined.

(** C8, as the specification states it, fails on a list with a repeated
    name: position 0 of ["A"; "A"] holds "A", which is mapped to 2 and not to
    [1 << 0]. *)
Lemma createCustomFlags_repeated_name :
  nth_error ["A"%string; "A"%string] 0 = Some "A"%string /\
  createCustomFlags ["A"%string; "A"%string] (mkFlagsManager 0 [])
  = (Normal [("A"%string, 2)], mkFlagsManager 0 []) /\
  get "A" [("A"%string, 2)] <> Some (shl 1 0).
Proof.
  split; [reflexivity |]. split; [reflexivity |]. discriminate.
Qed.

(** C8, amended.  [createCustomFlags] returns normally an object that
    depends on the list of names only, not on the instance it is called on,
    and leaves that instance as it was; in the object, a name other than
    ["__proto__"] is mapped to [1 << N] for the position [N] of its last
    occurrence in the list, so the Nth name is mapped to [1 << N] whenever it
    does not occur again later; ["A"; "B"; "C"] gives [{A: 1, B: 2, C: 4}]. *)
Theorem createCustomFlags_spec (names : list string) :
  exists o,
    (forall this, createCustomFlags names this = (Normal o, this)) /\
    (forall N name,
        nth_error names N = Some name ->
        name <> "__proto__"%string ->
        (forall N', (N < N')%nat -> nth_error names N' <> Some name) ->
        get name o = Some (shl 1 (Z.of_nat N))) /\
    (forall a, In a (values o) ->
               exists N, (N < List.length names)%nat /\ a = shl 1 (Z.of_nat N)) /\
    (forall this,
        createCustomFlags ["A"%string; "B"%string; "C"%string] this
        = (Normal [("A"%string, 1); ("B"%string, 2); ("C"%string, 4)], this)).
Proof.
  exists (reduce assign_bit names []).
  split; [reflexivity |]. split; [| split; [| reflexivity]].
  - intros N name Hnth Hproto Hlast. unfold reduce.
    rewrite (reduce_get_last names 0 [] N name Hnth Hproto Hlast).
    rewrite Z.add_0_l. reflexivity.
  - intros a Ha. apply reduce_values in Ha.
    destruct Ha as [[] | [N [HN ->]]].
    exists N. split; [exact HN |]. rewrite Z.add_0_l. reflexivity.
Qed.

Lemma createCustomFlags_spec_witness :
  exists o,
    createCustomFlags ["X"%string; "Y"%string] (mkFlagsManager 7 DEFAULT_FLAGS)
    = (Normal o, mkFlagsManager 7 DEFAULT_FLAGS) /\
    get "Y" o = Some 2.
Proof.
  destruct (createCustomFlags_spec ["X"%string; "Y"%string])
    as [o [Hpure [Hget _]]].
  exists o. split; [apply Hpure |].
  apply (Hget 1%nat "Y"%string).
  - reflexivity.
  - discriminate.
  - intros N' HN'.
    do 2 (destruct N' as [| N']; [first [lia | discriminate] |]).
    destruct N'; discriminate.
Defined.

(* ------------------------------------------------------------------ *)
(** ** Further properties of the single-flag methods *)

Ltac int32_range :=
  first [ assumption | apply bor_range | apply band_range | apply bxor_range
        | apply bnot_range | apply shl_range | apply toInt32_range ].

(** Equality of two 32-bit results, bit by bit. *)
Ltac by_bits n Hn :=
  apply Int32_bits_inj; [int32_range | int32_range |];
  intros n Hn;
  repeat first [ rewrite bor_testbit by exact Hn
               | rewrite band_testbit by exact Hn
               | rewrite bxor_testbit by exact Hn
               | rewrite bnot_testbit by exact Hn ].

Section SingleFlag.

Lemma shl_1_inj (i j : Z) :
  0 <= i < 32 -> 0 <= j < 32 -> shl 1 i = shl 1 j -> i = j.
Proof.
  intros Hi Hj Heq.
  assert (Hbit : Z.testbit (shl 1 i) i = Z.testbit (shl 1 j) i)
    by (rewrite Heq; reflexivity).
  rewrite !shl_1_testbit_small, Z.eqb_refl in Hbit by lia.
  symmetry in Hbit. apply Z.eqb_eq in Hbit. exact Hbit.
Qed.

Lemma setFlags_one (this : FlagsManager) (a : Z) :
  defined_flag this a ->
  setFlags [a] this
  = (Normal tt, mkFlagsManager (bor (flags this) a) (FLAGS this)).
Proof.
  intros Ha. apply setFlags_members. intros b [<- | []]. exact Ha.
Qed.

(** The test of [areFlagsSet], read on the bits. *)
Lemma mask_test (r : Z) (args : list Z) :
  (band r (combine 0 args) =? combine 0 args) = true <->
  (forall f n, In f args -> 0 <= n < 32 ->
               Z.testbit f n = true -> Z.testbit r n = true).
Proof.
  assert (Hmask : Int32 (combine 0 args))
    by (apply combine_range; unfold Int32; lia).
  rewrite Z.eqb_eq. split.
  - intros Heq f n Hf Hn Hbit.
    assert (Hm : Z.testbit (combine 0 args) n = true).
    { rewrite combine_testbit, Z.bits_0 by exact Hn. cbn [orb].
      apply existsb_exists. exists f. split; assumption. }
    rewrite <- Heq, band_testbit in Hm by exact Hn.
    apply andb_true_iff in Hm. tauto.
  - intros Hall. by_bits n Hn.
    destruct (Z.testbit (combine 0 args) n) eqn:Hm; [| apply andb_false_r].
    rewrite combine_testbit, Z.bits_0 in Hm by exact Hn. cbn [orb] in Hm.
    apply existsb_exists in Hm. destruct Hm as [f [Hf Hbit]].
    rewrite (Hall f n Hf Hn Hbit). reflexivity.
Qed.

End SingleFlag.

(** X1.  A value that is not among the values of the flag definitions is
    refused by every method that validates: [isFlagSet], [toggleFlag],
    [unsetFlag] and [setFlags] each throw the error
    [new Error(`Invalid flag: ${a}`)] for that value, and the instance stays
    as it was; when the value is a safe integer the message is
    "Invalid flag: " followed by its decimal digits. *)
Theorem validating_methods_reject (this : FlagsManager) (a : Z) :
  ~ defined_flag this a ->
  isFlagSet a this = (Throw (InvalidFlag a), this) /\
  toggleFlag a this = (Throw (InvalidFlag a), this) /\
  unsetFlag a this = (Throw (InvalidFlag a), this) /\
  setFlags [a] this = (Throw (InvalidFlag a), this) /\
  (safe_integer a = true ->
   InvalidFlag a = Error (Text ("Invalid flag: " ++ decimal a))).
Proof.
  intros Hout.
  split; [apply isFlagSet_stranger; exact Hout |].
  split; [apply toggleFlag_stranger; exact Hout |].
  split; [apply unsetFlag_stranger; exact Hout |].
  split; [| apply InvalidFlag_safe].
  apply setFlags_stranger. cbn [find].
  apply includes_not_In in Hout. rewrite Hout. reflexivity.
Qed.

Lemma validating_methods_reject_witness :
  ~ defined_flag (mkFlagsManager 5 DEFAULT_FLAGS) 3 /\
  toggleFlag 3 (mkFlagsManager 5 DEFAULT_FLAGS)
  = (Throw (Error (Text "Invalid flag: 3")), mkFlagsManager 5 DEFAULT_FLAGS).
Proof.
  assert (Hout : ~ defined_flag (mkFlagsManager 5 DEFAULT_FLAGS) 3)
    by (apply includes_not_In; reflexivity).
  split; [exact Hout |].
  destruct (validating_methods_reject _ _ Hout) as [_ [Htoggle _]].
  exact Htoggle.
Defined.

(** X2.  With constructed flag definitions, after [setFlags] of values that
    are all defined, [isFlagSet] is true for each of them and [areFlagsSet]
    of the same arguments is true. *)
Theorem setFlags_then_queries (this : FlagsManager) (args : list Z) :
  constructed (FLAGS this) ->
  (forall a, In a args -> defined_flag this a) ->
  exists this',
    setFlags args this = (Normal tt, this') /\
    (forall a, In a args -> isFlagSet a this' = (Normal true, this')) /\
    areFlagsSet args this' = (Normal true, this').
Proof.
  intros Hcons Hall.
  exists (mkFlagsManager (combine (flags this) args) (FLAGS this)).
  split; [apply setFlags_members; exact Hall |].
  assert (Hbit : forall f n, In f args -> 0 <= n < 32 ->
            Z.testbit f n = true ->
            Z.testbit (combine (flags this) args) n = true).
  { intros f n Hf Hn Hfn. rewrite combine_testbit by exact Hn.
    apply orb_true_iff. right. apply existsb_exists.
    exists f. split; assumption. }
  split.
  - intros a Ha.
    rewrite isFlagSet_member by (apply Hall; exact Ha). cbn [flags].
    destruct (constructed_values _ _ Hcons (Hall a Ha)) as [i [Hi ->]].
    rewrite flag_test by exact Hi.
    rewrite (Hbit (shl 1 i) i Ha Hi); [reflexivity |].
    rewrite shl_1_testbit_small by lia. apply Z.eqb_refl.
  - unfold areFlagsSet, bind, read, ret. cbn [flags].
    fold (combine 0 args).
    replace (band (combine (flags this) args) (combine 0 args)
             =? combine 0 args) with true; [reflexivity |].
    symmetry. apply mask_test. exact Hbit.
Qed.

Lemma setFlags_then_queries_witness :
  constructed (FLAGS (mkFlagsManager 0 DEFAULT_FLAGS)) /\
  (forall a, In a [8; 64] -> defined_flag (mkFlagsManager 0 DEFAULT_FLAGS) a) /\
  exists this',
    setFlags [8; 64] (mkFlagsManager 0 DEFAULT_FLAGS) = (Normal tt, this') /\
    isFlagSet 64 this' = (Normal true, this') /\
    areFlagsSet [8; 64] this' = (Normal true, this').
Proof.
  assert (Hcons : constructed (FLAGS (mkFlagsManager 0 DEFAULT_FLAGS))).
  { exists None, (mkFlagsManager 0 DEFAULT_FLAGS). split; reflexivity. }
  assert (Hall : forall a, In a [8; 64] ->
                           defined_flag (mkFlagsManager 0 DEFAULT_FLAGS) a).
  { intros a [<- | [<- | []]]; apply includes_In; reflexivity. }
  split; [exact Hcons |]. split; [exact Hall |].
  destruct (setFlags_then_queries _ _ Hcons Hall) as [this' [Hset [Hone Hmany]]].
  exists this'. split; [exact Hset |]. split; [| exact Hmany].
  apply Hone. right; left; reflexivity.
Defined.

(** X3.  With constructed flag definitions, a change to one defined flag
    leaves the answer of [isFlagSet] for every other defined flag as it was:
    this holds for [toggleFlag], [unsetFlag] and [setFlags] of that flag. *)
Theorem other_flags_untouched (this : FlagsManager) (a b : Z) :
  constructed (FLAGS this) ->
  defined_flag this a -> defined_flag this b -> a <> b ->
  exists answer this1 this2 this3,
    isFlagSet b this = (Normal answer, this) /\
    toggleFlag a this = (Normal tt, this1) /\
    isFlagSet b this1 = (Normal answer, this1) /\
    unsetFlag a this = (Normal tt, this2) /\
    isFlagSet b this2 = (Normal answer, this2) /\
    setFlags [a] this = (Normal tt, this3) /\
    isFlagSet b this3 = (Normal answer, this3).
Proof.
  intros Hcons Ha Hb Hne.
  destruct (constructed_values _ _ Hcons Ha) as [i [Hi Hai]].
  destruct (constructed_values _ _ Hcons Hb) as [j [Hj Hbj]].
  assert (Hij : (j =? i) = false).
  { apply Z.eqb_neq. intros ->. apply Hne. congruence. }
  exists (Z.testbit (flags this) j),
         (mkFlagsManager (bxor (flags this) a) (FLAGS this)),
         (mkFlagsManager (band (flags this) (bnot a)) (FLAGS this)),
         (mkFlagsManager (bor (flags this) a) (FLAGS this)).
  rewrite toggleFlag_member, unsetFlag_member, setFlags_one by exact Ha.
  rewrite !isFlagSet_member by exact Hb. cbn [flags].
  subst a b. rewrite !flag_test by exact Hj.
  rewrite bxor_testbit, band_testbit, bnot_testbit, bor_testbit by exact Hj.
  rewrite shl_1_testbit_small, Hij by lia. cbn [negb].
  rewrite xorb_false_r, andb_true_r, orb_false_r.
  repeat split.
Qed.

Lemma other_flags_untouched_witness :
  constructed (FLAGS (mkFlagsManager 5 DEFAULT_FLAGS)) /\
  defined_flag (mkFlagsManager 5 DEFAULT_FLAGS) 4 /\
  defined_flag (mkFlagsManager 5 DEFAULT_FLAGS) 1 /\
  4 <> 1 /\
  exists this1,
    toggleFlag 4 (mkFlagsManager 5 DEFAULT_FLAGS) = (Normal tt, this1) /\
    isFlagSet 1 this1 = (Normal true, this1).
Proof.
  assert (Hcons : constructed (FLAGS (mkFlagsManager 5 DEFAULT_FLAGS))).
  { exists None, (mkFlagsManager 0 DEFAULT_FLAGS). split; reflexivity. }
  assert (Ha : defined_flag (mkFlagsManager 5 DEFAULT_FLAGS) 4)
    by (apply includes_In; reflexivity).
  assert (Hb : defined_flag (mkFlagsManager 5 DEFAULT_FLAGS) 1)
    by (apply includes_In; reflexivity).
  assert (Hne : 4 <> 1) by discriminate.
  split; [exact Hcons |]. split; [exact Ha |]. split; [exact Hb |].
  split; [exact Hne |].
  destruct (other_flags_untouched _ _ _ Hcons Ha Hb Hne)
    as [answer [this1 [this2 [this3 [Hbefore [Htoggle [Hafter _]]]]]]].
  exists this1. split; [exact Htoggle |].
  assert (Hanswer : answer = true).
  { rewrite isFlagSet_member in Hbefore by exact Hb.
    injection Hbefore as Hbefore. rewrite <- Hbefore. reflexivity. }
  rewrite <- Hanswer. exact Hafter.
Defined.

(** X4.  With constructed flag definitions, [toggleFlag] of a defined flag
    inverts what [isFlagSet] answers for it; and it does what [unsetFlag]
    does when the flag was set, what [setFlags] does when it was not. *)
Theorem toggleFlag_inverts_answer (this : FlagsManager) (a : Z) :
  constructed (FLAGS this) ->
  defined_flag this a ->
  exists answer this',
    isFlagSet a this = (Normal answer, this) /\
    toggleFlag a this = (Normal tt, this') /\
    isFlagSet a this' = (Normal (negb answer), this') /\
    toggleFlag a this
    = (if answer then unsetFlag a this else setFlags [a] this).
Proof.
  intros Hcons Ha.
  destruct (constructed_values _ _ Hcons Ha) as [i [Hi Hai]].
  exists (Z.testbit (flags this) i),
         (mkFlagsManager (bxor (flags this) a) (FLAGS this)).
  rewrite toggleFlag_member, unsetFlag_member, setFlags_one by exact Ha.
  rewrite !isFlagSet_member by exact Ha. cbn [flags].
  subst a. rewrite !flag_test by exact Hi.
  rewrite bxor_testbit, shl_1_testbit_small, Z.eqb_refl, xorb_true_r by lia.
  split; [reflexivity |]. split; [reflexivity |]. split; [reflexivity |].
  destruct (Z.testbit (flags this) i) eqn:Hbit; f_equal; f_equal.
  - by_bits n Hn. rewrite shl_1_testbit_small by lia.
    destruct (Z.eqb_spec n i) as [-> | _].
    + rewrite Hbit. reflexivity.
    + cbn [negb]. rewrite xorb_false_r, andb_true_r. reflexivity.
  - by_bits n Hn. rewrite shl_1_testbit_small by lia.
    destruct (Z.eqb_spec n i) as [-> | _].
    + rewrite Hbit. reflexivity.
    + rewrite xorb_false_r, orb_false_r. reflexivity.
Qed.

Lemma toggleFlag_inverts_answer_witness :
  constructed (FLAGS (mkFlagsManager 5 DEFAULT_FLAGS)) /\
  defined_flag (mkFlagsManager 5 DEFAULT_FLAGS) 2 /\
  exists this',
    toggleFlag 2 (mkFlagsManager 5 DEFAULT_FLAGS) = (Normal tt, this') /\
    isFlagSet 2 this' = (Normal true, this').
Proof.
  assert (Hcons : constructed (FLAGS (mkFlagsManager 5 DEFAULT_FLAGS))).
  { exists None, (mkFlagsManager 0 DEFAULT_FLAGS). split; reflexivity. }
  assert (Ha : defined_flag (mkFlagsManager 5 DEFAULT_FLAGS) 2)
    by (apply includes_In; reflexivity).
  split; [exact Hcons |]. split; [exact Ha |].
  destruct (toggleFlag_inverts_answer _ _ Hcons Ha)
    as [answer [this' [Hbefore [Htoggle [Hafter _]]]]].
  exists this'. split; [exact Htoggle |].
  assert (Hanswer : answer = false).
  { rewrite isFlagSet_member in Hbefore by exact Ha.
    injection Hbefore as Hbefore. rewrite <- Hbefore. reflexivity. }
  rewrite Hanswer in Hafter. exact Hafter.
Defined.

(** X5.  After [unsetFlag] of a defined value, whatever the register held
    and whatever the definitions are, [isFlagSet] of that value is false and
    a second [unsetFlag] changes nothing. *)
Theorem unsetFlag_settles (this : FlagsManager) (a : Z) :
  defined_flag this a ->
  exists this',
    unsetFlag a this = (Normal tt, this') /\
    isFlagSet a this' = (Normal false, this') /\
    unsetFlag a this' = (Normal tt, this').
Proof.
  intros Ha.
  exists (mkFlagsManager (band (flags this) (bnot a)) (FLAGS this)).
  split; [apply unsetFlag_member; exact Ha |].
  rewrite isFlagSet_member, unsetFlag_member by exact Ha. cbn [flags FLAGS].
  split.
  - replace (band (band (flags this) (bnot a)) a) with 0; [reflexivity |].
    symmetry. apply Int32_zero_bits; [apply band_range |].
    intros n Hn. rewrite !band_testbit, bnot_testbit by exact Hn.
    destruct (Z.testbit (flags this) n), (Z.testbit a n); reflexivity.
  - f_equal. f_equal. by_bits n Hn.
    rewrite <- andb_assoc, andb_diag. reflexivity.
Qed.

Lemma unsetFlag_settles_witness :
  defined_flag (mkFlagsManager 7 DEFAULT_FLAGS) 2 /\
  exists this',
    unsetFlag 2 (mkFlagsManager 7 DEFAULT_FLAGS) = (Normal tt, this') /\
    isFlagSet 2 this' = (Normal false, this').
Proof.
  assert (Ha : defined_flag (mkFlagsManager 7 DEFAULT_FLAGS) 2)
    by (apply includes_In; reflexivity).
  split; [exact Ha |].
  destruct (unsetFlag_settles _ _ Ha) as [this' [Hunset [Hquery _]]].
  exists this'. split; [exact Hunset | exact Hquery].
Defined.

(** X6.  Calls on defined flags can be swapped: two [toggleFlag] calls, two
    [unsetFlag] calls and two [setFlags] calls give the same instance in
    either order; with constructed definitions and two different flags, so
    do a [setFlags] of one and an [unsetFlag] of the other. *)
Theorem calls_commute (this : FlagsManager) (a b : Z) :
  defined_flag this a -> defined_flag this b ->
  (toggleFlag a ;; toggleFlag b) this = (toggleFlag b ;; toggleFlag a) this /\
  (unsetFlag a ;; unsetFlag b) this = (unsetFlag b ;; unsetFlag a) this /\
  (setFlags [a] ;; setFlags [b]) this = (setFlags [b] ;; setFlags [a]) this /\
  (constructed (FLAGS this) -> a <> b ->
   (setFlags [a] ;; unsetFlag b) this = (unsetFlag b ;; setFlags [a]) this).
Proof.
  intros Ha Hb. unfold bind.
  rewrite !toggleFlag_member, !unsetFlag_member, !setFlags_one by assumption.
  cbv beta iota.
  rewrite ?toggleFlag_member, ?unsetFlag_member, ?setFlags_one by assumption.
  cbn [flags FLAGS].
  split; [| split; [| split]].
  - f_equal. f_equal. by_bits n Hn.
    rewrite !xorb_assoc, (xorb_comm (Z.testbit a n)). reflexivity.
  - f_equal. f_equal. by_bits n Hn.
    rewrite <- !andb_assoc, (andb_comm (negb (Z.testbit a n))). reflexivity.
  - f_equal. f_equal. by_bits n Hn.
    rewrite <- !orb_assoc, (orb_comm (Z.testbit a n)). reflexivity.
  - intros Hcons Hne.
    destruct (constructed_values _ _ Hcons Ha) as [i [Hi ->]].
    destruct (constructed_values _ _ Hcons Hb) as [j [Hj ->]].
    f_equal. f_equal. by_bits n Hn.
    rewrite !shl_1_testbit_small by lia.
    destruct (Z.eqb_spec n i) as [-> | _].
    + assert (Hij : (i =? j) = false).
      { apply Z.eqb_neq. intros ->. apply Hne. reflexivity. }
      rewrite Hij. destruct (Z.testbit (flags this) i); reflexivity.
    + rewrite !orb_false_r. reflexivity.
Qed.

Lemma calls_commute_witness :
  defined_flag (mkFlagsManager 5 DEFAULT_FLAGS) 4 /\
  defined_flag (mkFlagsManager 5 DEFAULT_FLAGS) 2 /\
  (toggleFlag 4 ;; toggleFlag 2) (mkFlagsManager 5 DEFAULT_FLAGS)
  = (toggleFlag 2 ;; toggleFlag 4) (mkFlagsManager 5 DEFAULT_FLAGS).
Proof.
  assert (Ha : defined_flag (mkFlagsManager 5 DEFAULT_FLAGS) 4)
    by (apply includes_In; reflexivity).
  assert (Hb : defined_flag (mkFlagsManager 5 DEFAULT_FLAGS) 2)
    by (apply includes_In; reflexivity).
  split; [exact Ha |]. split; [exact Hb |].
  destruct (calls_commute _ _ _ Ha Hb) as [Htoggle _]. exact Htoggle.
Defined.

(* ------------------------------------------------------------------ *)
(** ** Further properties of setFlags and areFlagsSet *)

Section Masks.

Lemma combine_nonempty_range (r : Z) (args : list Z) :
  args <> [] -> Int32 (combine r args).
Proof.
  destruct args as [| a args]; [congruence | intros _].
  cbn [combine fold_left]. apply (combine_range args). apply bor_range.
Qed.

Lemma existsb_same_elements {A : Type} (p : A -> bool) (xs ys : list A) :
  (forall a, In a xs <-> In a ys) -> existsb p xs = existsb p ys.
Proof.
  intros Hsame. apply eq_iff_eq_true. rewrite !existsb_exists.
  split; intros [a [Ha Hp]]; exists a; (split; [apply Hsame; exact Ha | exact Hp]).
Qed.

Lemma combine_same_elements (r : Z) (xs ys : list Z) :
  (forall a, In a xs <-> In a ys) -> combine r xs = combine r ys.
Proof.
  intros Hsame.
  destruct xs as [| x xs'] eqn:Hxs.
  - destruct ys as [| y ys']; [reflexivity |].
    exfalso. apply (Hsame y). left; reflexivity.
  - rewrite <- Hxs in *.
    assert (Hx : xs <> []) by (rewrite Hxs; discriminate).
    assert (Hy : ys <> []).
    { intros ->. apply (Hsame x). rewrite Hxs. left; reflexivity. }
    apply Int32_bits_inj; try (apply combine_nonempty_range; assumption).
    intros n Hn. rewrite !combine_testbit by exact Hn.
    rewrite (existsb_same_elements _ xs ys Hsame). reflexivity.
Qed.

End Masks.

(** X7.  With defined values only, two [setFlags] calls in a row do what a
    single call with both argument lists does, and what [setFlags] stores
    depends only on which values occur among its arguments, not on their
    order or on repetitions; so a call repeated changes nothing more. *)
Theorem setFlags_accumulates (this : FlagsManager) (xs ys zs : list Z) :
  (forall a, In a xs -> defined_flag this a) ->
  (forall a, In a ys -> defined_flag this a) ->
  (forall a, In a zs <-> In a xs \/ In a ys) ->
  (setFlags xs ;; setFlags ys) this = setFlags (xs ++ ys) this /\
  (setFlags xs ;; setFlags ys) this = setFlags zs this /\
  (setFlags xs ;; setFlags xs) this = setFlags xs this.
Proof.
  intros Hxs Hys Hzs.
  assert (Hboth : forall a, In a (xs ++ ys) -> defined_flag this a).
  { intros a Ha. apply in_app_or in Ha. destruct Ha; auto. }
  assert (Hstep : (setFlags xs ;; setFlags ys) this = setFlags (xs ++ ys) this).
  { unfold bind. rewrite (setFlags_members this xs Hxs).
    rewrite setFlags_members by exact Hys.
    rewrite (setFlags_members this (xs ++ ys) Hboth). cbn [flags FLAGS].
    unfold combine. rewrite fold_left_app. reflexivity. }
  split; [exact Hstep |]. split.
  - rewrite Hstep.
    rewrite (setFlags_members this (xs ++ ys) Hboth).
    rewrite setFlags_members
      by (intros a Ha; apply Hzs in Ha; destruct Ha; auto).
    f_equal. f_equal. apply combine_same_elements.
    intros a. rewrite in_app_iff. symmetry. apply Hzs.
  - unfold bind. rewrite (setFlags_members this xs Hxs).
    rewrite setFlags_members by exact Hxs. cbn [flags FLAGS].
    f_equal. f_equal. unfold combine. rewrite <- fold_left_app.
    apply combine_same_elements.
    intros a. rewrite in_app_iff. tauto.
Qed.

Lemma setFlags_accumulates_witness :
  (forall a, In a [1; 4] -> defined_flag (mkFlagsManager 0 DEFAULT_FLAGS) a) /\
  (forall a, In a [4; 8] -> defined_flag (mkFlagsManager 0 DEFAULT_FLAGS) a) /\
  (forall a, In a [8; 4; 1; 4] <-> In a [1; 4] \/ In a [4; 8]) /\
  (setFlags [1; 4] ;; setFlags [4; 8]) (mkFlagsManager 0 DEFAULT_FLAGS)
  = setFlags [8; 4; 1; 4] (mkFlagsManager 0 DEFAULT_FLAGS).
Proof.
  assert (Hxs : forall a, In a [1; 4] ->
                          defined_flag (mkFlagsManager 0 DEFAULT_FLAGS) a).
  { intros a [<- | [<- | []]]; apply includes_In; reflexivity. }
  assert (Hys : forall a, In a [4; 8] ->
                          defined_flag (mkFlagsManager 0 DEFAULT_FLAGS) a).
  { intros a [<- | [<- | []]]; apply includes_In; reflexivity. }
  assert (Hzs : forall a, In a [8; 4; 1; 4] <-> In a [1; 4] \/ In a [4; 8]).
  { intros a. cbn [In]. tauto. }
  split; [exact Hxs |]. split; [exact Hys |]. split; [exact Hzs |].
  destruct (setFlags_accumulates _ _ _ _ Hxs Hys Hzs) as [_ [Hsame _]].
  exact Hsame.
Defined.

(** X8.  For any register and any integers, [areFlagsSet] of two argument
    lists put together is the conjunction of its answers for each list. *)
Theorem areFlagsSet_app (this : FlagsManager) (xs ys : list Z) :
  exists answer_xs answer_ys,
    areFlagsSet xs this = (Normal answer_xs, this) /\
    areFlagsSet ys this = (Normal answer_ys, this) /\
    areFlagsSet (xs ++ ys) this = (Normal (answer_xs && answer_ys), this).
Proof.
  exists (band (flags this) (combine 0 xs) =? combine 0 xs),
         (band (flags this) (combine 0 ys) =? combine 0 ys).
  split; [reflexivity |]. split; [reflexivity |].
  unfold areFlagsSet, bind, read, ret. fold (combine 0 (xs ++ ys)).
  f_equal. f_equal. apply eq_iff_eq_true.
  rewrite andb_true_iff, !mask_test. split.
  - intros Hall. split; intros f n Hf; apply Hall; apply in_or_app; auto.
  - intros [Hx Hy] f n Hf. apply in_app_or in Hf.
    destruct Hf; [apply Hx | apply Hy]; assumption.
Qed.

(** X9.  With constructed flag definitions and defined arguments,
    [areFlagsSet] is true exactly when [isFlagSet] is true for every one of
    its arguments. *)
Theorem areFlagsSet_all_isFlagSet (this : FlagsManager) (args : list Z) :
  constructed (FLAGS this) ->
  (forall a, In a args -> defined_flag this a) ->
  exists answer,
    areFlagsSet args this = (Normal answer, this) /\
    (answer = true <->
     forall a, In a args -> isFlagSet a this = (Normal true, this)).
Proof.
  intros Hcons Hall.
  exists (band (flags this) (combine 0 args) =? combine 0 args).
  split; [reflexivity |]. rewrite mask_test. split.
  - intros Hbits a Ha.
    rewrite isFlagSet_member by (apply Hall; exact Ha).
    destruct (constructed_values _ _ Hcons (Hall a Ha)) as [i [Hi ->]].
    rewrite flag_test by exact Hi.
    rewrite (Hbits (shl 1 i) i Ha Hi); [reflexivity |].
    rewrite shl_1_testbit_small by lia. apply Z.eqb_refl.
  - intros Hset f n Hf Hn Hfn.
    pose proof (Hset f Hf) as Hanswer.
    rewrite isFlagSet_member in Hanswer by (apply Hall; exact Hf).
    destruct (constructed_values _ _ Hcons (Hall f Hf)) as [i [Hi ->]].
    rewrite flag_test in Hanswer by exact Hi.
    rewrite shl_1_testbit_small in Hfn by lia.
    apply Z.eqb_eq in Hfn. subst n. congruence.
Qed.

Lemma areFlagsSet_all_isFlagSet_witness :
  constructed (FLAGS (mkFlagsManager 5 DEFAULT_FLAGS)) /\
  (forall a, In a [1; 8] -> defined_flag (mkFlagsManager 5 DEFAULT_FLAGS) a) /\
  exists answer,
    areFlagsSet [1; 8] (mkFlagsManager 5 DEFAULT_FLAGS)
    = (Normal answer, mkFlagsManager 5 DEFAULT_FLAGS) /\
    (answer = true <->
     forall a, In a [1; 8] ->
               isFlagSet a (mkFlagsManager 5 DEFAULT_FLAGS)
               = (Normal true, mkFlagsManager 5 DEFAULT_FLAGS)).
Proof.
  assert (Hcons : constructed (FLAGS (mkFlagsManager 5 DEFAULT_FLAGS))).
  { exists None, (mkFlagsManager 0 DEFAULT_FLAGS). split; reflexivity. }
  assert (Hall : forall a, In a [1; 8] ->
                           defined_flag (mkFlagsManager 5 DEFAULT_FLAGS) a).
  { intros a [<- | [<- | []]]; apply includes_In; reflexivity. }
  split; [exact Hcons |]. split; [exact Hall |].
  exact (areFlagsSet_all_isFlagSet _ _ Hcons Hall).
Defined.

(** X10.  With constructed flag definitions, 0 and the [|] of two different
    defined values are not defined values: [setFlags] refuses the combined
    mask, while [areFlagsSet] takes it and answers as for the two values
    given one by one. *)
Theorem combined_mask_refused (this : FlagsManager) (a b : Z) :
  constructed (FLAGS this) ->
  defined_flag this a -> defined_flag this b -> a <> b ->
  ~ defined_flag this 0 /\
  ~ defined_flag this (bor a b) /\
  setFlags [bor a b] this = (Throw (InvalidFlag (bor a b)), this) /\
  InvalidFlag (bor a b) = Error (Text ("Invalid flag: " ++ decimal (bor a b))) /\
  areFlagsSet [bor a b] this = areFlagsSet [a; b] this.
Proof.
  intros Hcons Ha Hb Hne.
  destruct (constructed_values _ _ Hcons Ha) as [i [Hi ->]].
  destruct (constructed_values _ _ Hcons Hb) as [j [Hj ->]].
  assert (Hzero : ~ defined_flag this 0).
  { intros H0. destruct (constructed_values _ _ Hcons H0) as [k [Hk Heq]].
    assert (Hbit : Z.testbit 0 k = Z.testbit (shl 1 k) k)
      by (rewrite <- Heq; reflexivity).
    rewrite Z.bits_0, shl_1_testbit_small, Z.eqb_refl in Hbit by lia.
    discriminate. }
  assert (Hor : ~ defined_flag this (bor (shl 1 i) (shl 1 j))).
  { intros Hdef. destruct (constructed_values _ _ Hcons Hdef) as [k [Hk Heq]].
    assert (Hbits : forall n, 0 <= n < 32 ->
              (n =? i) || (n =? j) = (n =? k)).
    { intros n Hn. rewrite <- !shl_1_testbit_small by lia.
      rewrite <- bor_testbit, Heq by exact Hn. reflexivity. }
    pose proof (Hbits i Hi) as Hik. pose proof (Hbits j Hj) as Hjk.
    rewrite Z.eqb_refl in Hik. rewrite Z.eqb_refl, orb_true_r in Hjk.
    cbn [orb] in Hik. symmetry in Hik, Hjk.
    apply Z.eqb_eq in Hik, Hjk. apply Hne. congruence. }
  split; [exact Hzero |]. split; [exact Hor |]. split; [| split].
  - apply setFlags_stranger. cbn [find].
    apply includes_not_In in Hor. rewrite Hor. reflexivity.
  - apply InvalidFlag_safe, Int32_safe, bor_range.
  - unfold areFlagsSet, bind, read, ret. cbn [fold_left].
    replace (bor (bor 0 (shl 1 i)) (shl 1 j))
      with (bor 0 (bor (shl 1 i) (shl 1 j))); [reflexivity |].
    by_bits n Hn. rewrite orb_assoc. reflexivity.
Qed.

Lemma combined_mask_refused_witness :
  constructed (FLAGS (mkFlagsManager 0 DEFAULT_FLAGS)) /\
  defined_flag (mkFlagsManager 0 DEFAULT_FLAGS) 1 /\
  defined_flag (mkFlagsManager 0 DEFAULT_FLAGS) 2 /\
  1 <> 2 /\
  setFlags [3] (mkFlagsManager 0 DEFAULT_FLAGS)
  = (Throw (Error (Text "Invalid flag: 3")), mkFlagsManager 0 DEFAULT_FLAGS).
Proof.
  assert (Hcons : constructed (FLAGS (mkFlagsManager 0 DEFAULT_FLAGS))).
  { exists None, (mkFlagsManager 0 DEFAULT_FLAGS). split; reflexivity. }
  assert (Ha : defined_flag (mkFlagsManager 0 DEFAULT_FLAGS) 1)
    by (apply includes_In; reflexivity).
  assert (Hb : defined_flag (mkFlagsManager 0 DEFAULT_FLAGS) 2)
    by (apply includes_In; reflexivity).
  assert (Hne : 1 <> 2) by discriminate.
  split; [exact Hcons |]. split; [exact Ha |]. split; [exact Hb |].
  split; [exact Hne |].
  destruct (combined_mask_refused _ _ _ Hcons Ha Hb Hne) as [_ [_ [Hset _]]].
  exact Hset.
Defined.

(* ------------------------------------------------------------------ *)
(** ** Queries, the table of printFlagsStatus, and what calls preserve *)

Section Queries.

Lemma map_cb_pure {A B : Type} (f : A -> M B) (g : A -> B)
      (xs : list A) (this : FlagsManager) :
  (forall x, In x xs -> f x this = (Normal (g x), this)) ->
  map_cb f xs this = (Normal (map g xs), this).
Proof.
  induction xs as [| x xs IH]; intros Hf; [reflexivity |].
  cbn [map_cb map]. unfold bind at 1.
  rewrite Hf by (left; reflexivity).
  unfold bind at 1. rewrite IH by (intros y Hy; apply Hf; right; exact Hy).
  reflexivity.
Qed.

Lemma printFlagsStatus_rows (this : FlagsManager) :
  printFlagsStatus this
  = (Normal (map (fun name =>
                    mkRow name (if name_test this name
                                then "Active" else "Inactive"))
                 (keys (FLAGS this))),
     this).
Proof.
  unfold printFlagsStatus. unfold bind at 1. cbn [read].
  unfold bind at 1.
  rewrite (map_cb_pure _
             (fun name => mkRow name (if name_test this name
                                      then "Active"%string
                                      else "Inactive"%string))).
  - reflexivity.
  - intros name Hname. unfold name_test.
    destruct (keys_get _ _ Hname) as [v Hv]. rewrite Hv.
    unfold bind.
    rewrite isFlagSet_member
      by (unfold defined_flag; apply get_In_values with (k := name); exact Hv).
    reflexivity.
Qed.

Lemma existsb_filter_name (q : string -> bool) (name : string)
      (names : list string) :
  In name names ->
  existsb (String.eqb name) (filter q names) = q name.
Proof.
  intros Hname. apply eq_iff_eq_true. rewrite existsb_exists. split.
  - intros [x [Hx Heq]]. apply String.eqb_eq in Heq. subst x.
    apply filter_In in Hx. tauto.
  - intros Hq. exists name. split; [| apply String.eqb_refl].
    apply filter_In. split; assumption.
Qed.

Lemma perform_keeps_FLAGS (c : call) (this : FlagsManager) :
  FLAGS (snd (perform c this)) = FLAGS this.
Proof.
  destruct c as [fl | a | a | a | | | fl]; cbn [perform].
  - destruct (find (fun a => negb (includes a (values (FLAGS this)))) fl)
      as [v |] eqn:Hfind.
    + rewrite (setFlags_stranger _ _ _ Hfind). reflexivity.
    + rewrite setFlags_members by (apply find_stranger_none; exact Hfind).
      reflexivity.
  - unfold bind. pose proof (isFlagSet_keeps_this this a) as Hkeep.
    destruct (isFlagSet a this) as [[b | e] this']; cbn [snd] in Hkeep;
      subst this'; reflexivity.
  - destruct (defined_flag_dec this a) as [Hin | Hout].
    + rewrite toggleFlag_member by exact Hin. reflexivity.
    + rewrite toggleFlag_stranger by exact Hout. reflexivity.
  - destruct (defined_flag_dec this a) as [Hin | Hout].
    + rewrite unsetFlag_member by exact Hin. reflexivity.
    + rewrite unsetFlag_stranger by exact Hout. reflexivity.
  - unfold bind. rewrite getActiveFlags_filter. reflexivity.
  - reflexivity.
  - reflexivity.
Qed.

End Queries.

(** X11.  The queries never change the instance they are called on, whether
    they return or throw: [isFlagSet], [areFlagsSet], [getActiveFlags],
    [printFlagsStatus] and [createCustomFlags]; [getActiveFlags] and
    [printFlagsStatus] never throw, whatever the instance holds. *)
Theorem queries_leave_instance (this : FlagsManager) :
  (forall a, snd (isFlagSet a this) = this) /\
  (forall args, exists answer, areFlagsSet args this = (Normal answer, this)) /\
  (exists names, getActiveFlags this = (Normal names, this)) /\
  (exists rows, printFlagsStatus this = (Normal rows, this)) /\
  (forall names, exists o, createCustomFlags names this = (Normal o, this)).
Proof.
  split; [intros a; apply isFlagSet_keeps_this |].
  split; [intros args; eexists; reflexivity |].
  split; [eexists; apply getActiveFlags_filter |].
  split; [eexists; apply printFlagsStatus_rows |].
  intros names. eexists. reflexivity.
Qed.

(** X12.  [printFlagsStatus] builds one row per name of the flag
    definitions, in their order, and the row of a name says "Active" exactly
    when [getActiveFlags] lists that name, "Inactive" otherwise. *)
Theorem printFlagsStatus_matches_getActiveFlags (this : FlagsManager) :
  exists active,
    getActiveFlags this = (Normal active, this) /\
    printFlagsStatus this
    = (Normal (map (fun name =>
                      mkRow name (if existsb (String.eqb name) active
                                  then "Active" else "Inactive"))
                   (keys (FLAGS this))),
       this).
Proof.
  eexists. split; [apply getActiveFlags_filter |].
  rewrite printFlagsStatus_rows. f_equal. f_equal.
  apply map_ext_in. intros name Hname.
  rewrite existsb_filter_name by exact Hname. reflexivity.
Qed.

(** X13.  Whatever the constructor was given, after any sequence of calls,
    failed ones included, the flag definitions are those the constructor
    built, the register is a signed 32-bit integer, and every bit set in it
    is a bit of the [|] of all defined values. *)
Theorem register_within_defined_bits
        (customFlagNames : option (list string)) (this0 : FlagsManager)
        (cs : list call) :
  constructor customFlagNames = Normal this0 ->
  FLAGS (after_calls cs this0) = FLAGS this0 /\
  Int32 (flags (after_calls cs this0)) /\
  band (flags (after_calls cs this0))
       (bnot (combine 0 (values (FLAGS this0)))) = 0.
Proof.
  intros Hnew.
  destruct (after_calls_covered cs this0 (constructor_covered _ _ Hnew))
    as [Hsame [Hrange Hbits]].
  split; [exact Hsame |]. split; [exact Hrange |].
  apply Int32_zero_bits; [apply band_range |].
  intros n Hn. rewrite band_testbit, bnot_testbit by exact Hn.
  destruct (Z.testbit (flags (after_calls cs this0)) n) eqn:Hset;
    [| reflexivity].
  destruct (Hbits n Hn Hset) as [v [Hv Hvn]].
  rewrite combine_testbit, Z.bits_0 by exact Hn. cbn [orb andb].
  apply negb_false_iff. apply existsb_exists. exists v. split; assumption.
Qed.

Lemma register_within_defined_bits_witness :
  constructor (Some ["A"%string; "B"%string]) = Normal (mkFlagsManager 0 [("A"%string, 1); ("B"%string, 2)]) /\
  band (flags (after_calls [CallSetFlags [2]; CallToggleFlag 4; CallToggleFlag 1]
                           (mkFlagsManager 0 [("A"%string, 1); ("B"%string, 2)])))
       (bnot 3) = 0.
Proof.
  assert (Hnew : constructor (Some ["A"%string; "B"%string])
                 = Normal (mkFlagsManager 0 [("A"%string, 1); ("B"%string, 2)]))
    by reflexivity.
  split; [exact Hnew |].
  destruct (register_within_defined_bits _ _
              [CallSetFlags [2]; CallToggleFlag 4; CallToggleFlag 1] Hnew)
    as [_ [_ Hbits]].
  exact Hbits.
Defined.

(** X14.  A register constructed from the empty list of names defines no
    flag: after any sequence of calls it is still the instance the
    constructor returned, every validating method throws
    [new Error(`Invalid flag: ${a}`)] for every value [a] (with the decimal
    digits of [a] in the message when [a] is a safe integer), and
    [getActiveFlags] returns the empty array. *)
Theorem empty_definitions (cs : list call) (a : Z) :
  exists this0,
    constructor (Some []) = Normal this0 /\
    after_calls cs this0 = this0 /\
    isFlagSet a this0 = (Throw (InvalidFlag a), this0) /\
    toggleFlag a this0 = (Throw (InvalidFlag a), this0) /\
    unsetFlag a this0 = (Throw (InvalidFlag a), this0) /\
    setFlags [a] this0 = (Throw (InvalidFlag a), this0) /\
    (safe_integer a = true ->
     InvalidFlag a = Error (Text ("Invalid flag: " ++ decimal a))) /\
    getActiveFlags this0 = (Normal [], this0).
Proof.
  exists (mkFlagsManager 0 []).
  split; [reflexivity |].
  split; [| repeat split; apply InvalidFlag_safe].
  destruct (after_calls_covered cs (mkFlagsManager 0 [])
              (constructor_covered (Some []) _ eq_refl))
    as [Hsame [Hrange Hbits]].
  cbn [FLAGS] in Hsame, Hbits.
  rewrite <- (this_eta (after_calls cs (mkFlagsManager 0 []))), Hsame.
  f_equal. apply Int32_zero_bits; [exact Hrange |].
  intros n Hn.
  destruct (Z.testbit (flags (after_calls cs (mkFlagsManager 0 []))) n)
    eqn:Hset; [| reflexivity].
  destruct (Hbits n Hn Hset) as [v [[] _]].
Qed.

(** X15.  A bit position at or beyond the number of names given to the
    constructor (15 for the default flags) is not a defined flag, so
    [setFlags(1 << k)] throws for it and leaves the register as it was. *)
Theorem bits_beyond_count_refused
        (customFlagNames : option (list string)) (this0 : FlagsManager)
        (r k : Z) :
  constructor customFlagNames = Normal this0 ->
  Z.of_nat (match customFlagNames with
            | Some names => List.length names
            | None => 15
            end) <= k < 32 ->
  ~ defined_flag this0 (shl 1 k) /\
  setFlags [shl 1 k] (mkFlagsManager r (FLAGS this0))
  = (Throw (InvalidFlag (shl 1 k)), mkFlagsManager r (FLAGS this0)) /\
  InvalidFlag (shl 1 k) = Error (Text ("Invalid flag: " ++ decimal (shl 1 k))).
Proof.
  intros Hnew Hk.
  assert (Hout : ~ In (shl 1 k) (values (FLAGS this0))).
  { intros Hdef. destruct customFlagNames as [names |].
    - rewrite constructor_custom in Hnew. injection Hnew as <-.
      cbn [FLAGS] in Hdef. apply reduce_values in Hdef.
      destruct Hdef as [[] | [N [HN Heq]]]. rewrite Z.add_0_l in Heq.
      apply shl_1_inj in Heq; lia.
    - rewrite constructor_default in Hnew. injection Hnew as <-.
      assert (Hbit : Z.testbit (shl 1 k) k = false)
        by (apply default_values_low; [exact Hdef | lia]).
      rewrite shl_1_testbit_small, Z.eqb_refl in Hbit by lia.
      discriminate. }
  split; [exact Hout |]. split; [| apply InvalidFlag_safe, Int32_safe, shl_range].
  apply setFlags_stranger. cbn [find FLAGS].
  apply includes_not_In in Hout. rewrite Hout. reflexivity.
Qed.

Lemma bits_beyond_count_refused_witness :
  constructor (Some ["CUSTOM_FLAG_1"%string; "CUSTOM_FLAG_2"%string;
                     "CUSTOM_FLAG_3"%string])
  = Normal (mkFlagsManager 0 [("CUSTOM_FLAG_1"%string, 1);
                              ("CUSTOM_FLAG_2"%string, 2);
                              ("CUSTOM_FLAG_3"%string, 4)]) /\
  3 <= 15 < 32 /\
  setFlags [shl 1 15]
           (mkFlagsManager 3 [("CUSTOM_FLAG_1"%string, 1);
                              ("CUSTOM_FLAG_2"%string, 2);
                              ("CUSTOM_FLAG_3"%string, 4)])
  = (Throw (Error (Text "Invalid flag: 32768")),
     mkFlagsManager 3 [("CUSTOM_FLAG_1"%string, 1);
                       ("CUSTOM_FLAG_2"%string, 2);
                       ("CUSTOM_FLAG_3"%string, 4)]).
Proof.
  assert (Hnew :
    constructor (Some ["CUSTOM_FLAG_1"%string; "CUSTOM_FLAG_2"%string;
                       "CUSTOM_FLAG_3"%string])
    = Normal (mkFlagsManager 0 [("CUSTOM_FLAG_1"%string, 1);
                                ("CUSTOM_FLAG_2"%string, 2);
                                ("CUSTOM_FLAG_3"%string, 4)]))
    by reflexivity.
  assert (Hk : 3 <= 15 < 32) by lia.
  split; [exact Hnew |]. split; [exact Hk |].
  destruct (bits_beyond_count_refused _ _ 3 15 Hnew Hk) as [_ [Hthrow _]].
  exact Hthrow.
Defined.

(* ------------------------------------------------------------------ *)
(** ** The names of the flag definitions *)

Section Names.

Lemma get_none_keys (k : string) (o : object) :
  get k o = None <-> ~ In k (keys o).
Proof.
  induction o as [| [k1 v1] o IH]; cbn [get keys map fst In].
  - tauto.
  - destruct (String.eqb_spec k k1) as [-> | Hne].
    + split; [discriminate | intros H; exfalso; apply H; left; reflexivity].
    + rewrite IH. unfold keys. split.
      * intros Hnot [Heq | Hin]; [apply Hne; symmetry; exact Heq | tauto].
      * intros Hnot Hin. apply Hnot. right. exact Hin.
Qed.

Lemma has_keys (k : string) (o : object) :
  has k o = true <-> In k (keys o).
Proof.
  unfold has. pose proof (get_none_keys k o) as Hnone.
  destruct (get k o) as [v |].
  - split; [intros _ | reflexivity].
    destruct (in_dec string_dec k (keys o)) as [Hin | Hout]; [exact Hin |].
    apply Hnone in Hout. discriminate.
  - split; [discriminate |]. intros Hin. exfalso.
    apply (proj1 Hnone); [reflexivity | exact Hin].
Qed.

Lemma keys_update (k : string) (v : Z) (o : object) :
  keys (update k v o) = keys o.
Proof.
  induction o as [| [k1 v1] o IH]; cbn [update keys map fst]; [reflexivity |].
  destruct (String.eqb k k1); cbn [map fst]; [reflexivity |].
  f_equal. exact IH.
Qed.

Lemma In_keys_add_index (i : N) (k k' : string) (v : Z) (o : object) :
  In k' (keys (add_index i k v o)) <-> k' = k \/ In k' (keys o).
Proof.
  induction o as [| [k1 v1] o IH]; cbn [add_index keys map fst In].
  - split; [intros [<- | []]; left; reflexivity | intros [-> | []]; left; reflexivity].
  - destruct (array_index k1) as [j |];
      [destruct (j <? i)%N |]; cbn [map fst In]; fold (keys o);
      fold (keys (add_index i k v o)); rewrite ?IH;
      intuition congruence.
Qed.

Lemma NoDup_keys_add_index (i : N) (k : string) (v : Z) (o : object) :
  ~ In k (keys o) -> NoDup (keys o) -> NoDup (keys (add_index i k v o)).
Proof.
  induction o as [| [k1 v1] o IH]; cbn [add_index keys map fst In];
    intros Hout Hnodup.
  - constructor; [intros [] | constructor].
  - fold (keys o) in *. inversion Hnodup as [| x l Hk1 Hrest]; subst.
    destruct (array_index k1) as [j |];
      [destruct (j <? i)%N |]; cbn [map fst]; fold (keys o);
      fold (keys (add_index i k v o)).
    + constructor.
      * rewrite In_keys_add_index. intros [-> | Hin]; [| exact (Hk1 Hin)].
        apply Hout. left; reflexivity.
      * apply IH; [| exact Hrest]. intros Hin. apply Hout. right; exact Hin.
    + constructor; [exact Hout | exact Hnodup].
    + constructor; [exact Hout | exact Hnodup].
Qed.

Lemma In_keys_set (k k' : string) (v : Z) (o : object) :
  In k' (keys (set k v o)) <->
  In k' (keys o) \/ (k' = k /\ k <> "__proto__"%string).
Proof.
  unfold set.
  destruct (String.eqb_spec k "__proto__") as [-> | Hproto]; [tauto |].
  destruct (has k o) eqn:Hhas.
  - rewrite keys_update. apply has_keys in Hhas.
    split; [tauto |]. intros [Hin | [-> _]]; assumption.
  - destruct (array_index k).
    + rewrite In_keys_add_index. tauto.
    + unfold keys. rewrite map_app, in_app_iff. cbn [map fst In].
      intuition congruence.
Qed.

Lemma NoDup_keys_set (k : string) (v : Z) (o : object) :
  NoDup (keys o) -> NoDup (keys (set k v o)).
Proof.
  intros Hnodup. unfold set.
  destruct (String.eqb k "__proto__"); [exact Hnodup |].
  destruct (has k o) eqn:Hhas.
  - rewrite keys_update. exact Hnodup.
  - assert (Hout : ~ In k (keys o)).
    { intros Hin. apply has_keys in Hin. congruence. }
    destruct (array_index k).
    + apply NoDup_keys_add_index; assumption.
    + unfold keys. rewrite map_app. cbn [map fst].
      apply NoDup_app; [exact Hnodup | constructor; [intros [] | constructor] |].
      intros x Hx [<- | []]. exact (Hout Hx).
Qed.

Lemma reduce_keys (names : list string) (index : Z) (acc : object) :
  NoDup (keys acc) ->
  NoDup (keys (reduce_from assign_bit index names acc)) /\
  forall k, In k (keys (reduce_from assign_bit index names acc)) <->
            In k (keys acc) \/ (In k names /\ k <> "__proto__"%string).
Proof.
  revert index acc.
  induction names as [| x names IH]; intros index acc Hnodup;
    cbn [reduce_from In].
  - split; [exact Hnodup | tauto].
  - destruct (IH (index + 1) (assign_bit acc x index)
                 (NoDup_keys_set _ _ _ Hnodup)) as [Hnd Hin].
    split; [exact Hnd |].
    intros k. rewrite Hin. unfold assign_bit. rewrite In_keys_set.
    intuition congruence.
Qed.

Lemma get_In_pair (k : string) (v : Z) (o : object) :
  NoDup (keys o) -> In (k, v) o -> get k o = Some v.
Proof.
  induction o as [| [k1 v1] o IH]; cbn [keys map fst get In];
    intros Hnodup Hin; [destruct Hin |].
  fold (keys o) in Hnodup. inversion Hnodup as [| x l Hk1 Hrest]; subst.
  destruct Hin as [[= -> ->] | Hin].
  - rewrite String.eqb_refl. reflexivity.
  - destruct (String.eqb_spec k k1) as [-> | _].
    + exfalso. apply Hk1. unfold keys.
      apply (in_map fst) in Hin. exact Hin.
    + apply IH; assumption.
Qed.

Lemma DEFAULT_FLAGS_as_custom :
  DEFAULT_FLAGS
  = reduce assign_bit (keys DEFAULT_FLAGS) [].
Proof. reflexivity. Qed.

Lemma constructed_NoDup (o : object) : constructed o -> NoDup (keys o).
Proof.
  intros [[names |] [this0 [Hnew <-]]].
  - rewrite constructor_custom in Hnew. injection Hnew as <-. cbn [FLAGS].
    apply reduce_keys. constructor.
  - rewrite constructor_default in Hnew. injection Hnew as <-. cbn [FLAGS].
    rewrite DEFAULT_FLAGS_as_custom. apply reduce_keys. constructor.
Qed.

Lemma NoDup_last_occurrence (names : list string) (N : nat) (name : string) :
  NoDup names -> nth_error names N = Some name ->
  forall N', (N < N')%nat -> nth_error names N' <> Some name.
Proof.
  intros Hnodup Hnth N' HN' Hnth'.
  assert (HN : (N < List.length names)%nat)
    by (apply nth_error_Some; congruence).
  pose proof (proj1 (NoDup_nth_error names) Hnodup N N' HN) as Hinj.
  rewrite Hnth, Hnth' in Hinj. specialize (Hinj eq_refl). lia.
Qed.

Lemma reduce_ordinary (names : list string) (index : Z) (acc : object) :
  NoDup names ->
  Forall ordinary_name names ->
  (forall k, In k names -> ~ In k (keys acc)) ->
  reduce_from assign_bit index names acc = acc ++ numbered index names.
Proof.
  revert index acc.
  induction names as [| x names IH]; intros index acc Hnodup Hord Hfresh;
    cbn [reduce_from numbered].
  - rewrite app_nil_r. reflexivity.
  - inversion Hnodup as [| y l Hx Hrest]; subst.
    inversion Hord as [| y l [Hproto Hindex] Hord']; subst.
    assert (Hset : assign_bit acc x index = acc ++ [(x, shl 1 index)]).
    { unfold assign_bit, set.
      apply String.eqb_neq in Hproto. rewrite Hproto.
      assert (Hhas : has x acc = false).
      { destruct (has x acc) eqn:Hhas; [| reflexivity].
        apply has_keys in Hhas. exfalso.
        apply (Hfresh x); [left; reflexivity | exact Hhas]. }
      rewrite Hhas, Hindex. reflexivity. }
    rewrite Hset, IH; [rewrite <- app_assoc; reflexivity | exact Hrest
                       | exact Hord' |].
    intros k Hk. unfold keys. rewrite map_app, in_app_iff. cbn [map fst In].
    intros [Hin | [<- | []]].
    + apply (Hfresh k); [right; exact Hk | exact Hin].
    + exact (Hx Hk).
Qed.

Lemma keys_numbered (index : Z) (names : list string) :
  keys (numbered index names) = names.
Proof.
  revert index. induction names as [| x names IH]; intros index;
    cbn [numbered keys map fst]; [reflexivity |].
  f_equal. apply IH.
Qed.

Lemma nth_numbered (index : Z) (names : list string) (N : nat) (name : string) :
  nth_error names N = Some name ->
  nth_error (numbered index names) N = Some (name, shl 1 (index + Z.of_nat N)).
Proof.
  revert index N. induction names as [| x names IH]; intros index N Hnth.
  - destruct N; discriminate.
  - destruct N as [| N]; cbn [numbered nth_error] in *.
    + injection Hnth as ->. rewrite Z.add_0_r. reflexivity.
    + rewrite (IH (index + 1) N Hnth). do 3 f_equal. lia.
Qed.

End Names.

(** X16.  The object [createCustomFlags] returns has each name of the list
    once as a key, however often the list repeats it, except for
    ["__proto__"], which never becomes a key; so it has at most as many keys
    as the list has entries. *)
Theorem createCustomFlags_keys (names : list string) (this : FlagsManager) :
  exists o,
    createCustomFlags names this = (Normal o, this) /\
    NoDup (keys o) /\
    (forall k, In k (keys o) <-> In k names /\ k <> "__proto__"%string) /\
    (List.length (keys o) <= List.length names)%nat.
Proof.
  exists (reduce assign_bit names []).
  split; [reflexivity |].
  destruct (reduce_keys names 0 [] (NoDup_nil string)) as [Hnodup Hin].
  fold (reduce assign_bit names []) in Hnodup, Hin.
  split; [exact Hnodup |]. split.
  - intros k. rewrite Hin. cbn [keys map In]. tauto.
  - apply NoDup_incl_length; [exact Hnodup |].
    intros k Hk. apply Hin in Hk. cbn [keys map In] in Hk. tauto.
Qed.

(** X17.  For a list of names without repetition, none of them
    ["__proto__"] or an array index, [createCustomFlags] returns the names in
    the order of the list, the Nth one (from 0) with the value [1 << N]. *)
Theorem createCustomFlags_keeps_order (names : list string) (this : FlagsManager) :
  NoDup names ->
  Forall ordinary_name names ->
  exists o,
    createCustomFlags names this = (Normal o, this) /\
    keys o = names /\
    (forall N name, nth_error names N = Some name ->
                    nth_error o N = Some (name, shl 1 (Z.of_nat N))).
Proof.
  intros Hnodup Hord. exists (numbered 0 names).
  split; [| split].
  - unfold createCustomFlags, ret, reduce.
    change (fun (acc : object) (flag : string) (index : Z) =>
              set flag (shl 1 index) acc) with assign_bit.
    rewrite reduce_ordinary; [reflexivity | assumption | assumption |].
    intros k _ [].
  - apply keys_numbered.
  - intros N name Hnth. rewrite (nth_numbered 0 names N name Hnth).
    rewrite Z.add_0_l. reflexivity.
Qed.

Lemma createCustomFlags_keeps_order_witness :
  NoDup ["CUSTOM_FLAG_1"%string; "CUSTOM_FLAG_2"%string; "CUSTOM_FLAG_3"%string] /\
  Forall ordinary_name
         ["CUSTOM_FLAG_1"%string; "CUSTOM_FLAG_2"%string; "CUSTOM_FLAG_3"%string] /\
  exists o,
    createCustomFlags
      ["CUSTOM_FLAG_1"%string; "CUSTOM_FLAG_2"%string; "CUSTOM_FLAG_3"%string]
      (mkFlagsManager 0 [])
    = (Normal o, mkFlagsManager 0 []) /\
    keys o = ["CUSTOM_FLAG_1"%string; "CUSTOM_FLAG_2"%string; "CUSTOM_FLAG_3"%string].
Proof.
  assert (Hnodup : NoDup ["CUSTOM_FLAG_1"%string; "CUSTOM_FLAG_2"%string;
                          "CUSTOM_FLAG_3"%string]).
  { repeat constructor; cbn [In]; intuition discriminate. }
  assert (Hord : Forall ordinary_name
                        ["CUSTOM_FLAG_1"%string; "CUSTOM_FLAG_2"%string;
                         "CUSTOM_FLAG_3"%string]).
  { repeat constructor; discriminate. }
  split; [exact Hnodup |]. split; [exact Hord |].
  destruct (createCustomFlags_keeps_order _ (mkFlagsManager 0 []) Hnodup Hord)
    as [o [Hnew [Hkeys _]]].
  exists o. split; [exact Hnew | exact Hkeys].
Defined.

(** X18.  In the object [createCustomFlags] returns, two names (neither of
    them ["__proto__"], each taken at its last position in the list) have
    the same value exactly when their positions are equal modulo 32: names
    32 positions apart share one bit, and in a list of at most 32 names
    without repetition all values differ. *)
Theorem createCustomFlags_same_value
        (names : list string) (this : FlagsManager)
        (N1 N2 : nat) (name1 name2 : string) :
  nth_error names N1 = Some name1 ->
  nth_error names N2 = Some name2 ->
  name1 <> "__proto__"%string -> name2 <> "__proto__"%string ->
  (forall N', (N1 < N')%nat -> nth_error names N' <> Some name1) ->
  (forall N', (N2 < N')%nat -> nth_error names N' <> Some name2) ->
  exists o v1 v2,
    createCustomFlags names this = (Normal o, this) /\
    get name1 o = Some v1 /\ get name2 o = Some v2 /\
    (v1 = v2 <-> Z.of_nat N1 mod 32 = Z.of_nat N2 mod 32) /\
    (NoDup names -> (List.length names <= 32)%nat ->
     (v1 = v2 <-> name1 = name2)).
Proof.
  intros Hnth1 Hnth2 Hproto1 Hproto2 Hlast1 Hlast2.
  exists (reduce assign_bit names []),
         (shl 1 (Z.of_nat N1)), (shl 1 (Z.of_nat N2)).
  split; [reflexivity |].
  unfold reduce.
  rewrite (reduce_get_last names 0 [] N1 name1 Hnth1 Hproto1 Hlast1).
  rewrite (reduce_get_last names 0 [] N2 name2 Hnth2 Hproto2 Hlast2).
  rewrite !Z.add_0_l. split; [reflexivity |]. split; [reflexivity |].
  assert (Hmod : shl 1 (Z.of_nat N1) = shl 1 (Z.of_nat N2) <->
                 Z.of_nat N1 mod 32 = Z.of_nat N2 mod 32).
  { rewrite (shl_1_mod (Z.of_nat N1)), (shl_1_mod (Z.of_nat N2)). split.
    - apply shl_1_inj; apply Z.mod_pos_bound; lia.
    - intros ->. reflexivity. }
  split; [exact Hmod |].
  intros Hnodup Hlen. rewrite Hmod.
  assert (H1 : (N1 < List.length names)%nat)
    by (apply nth_error_Some; congruence).
  assert (H2 : (N2 < List.length names)%nat)
    by (apply nth_error_Some; congruence).
  rewrite !Z.mod_small by lia. split.
  - intros Heq. apply Nat2Z.inj in Heq. subst N2. congruence.
  - intros ->.
    pose proof (proj1 (NoDup_nth_error names) Hnodup N1 N2 H1) as Hinj.
    rewrite Hnth1, Hnth2 in Hinj. rewrite (Hinj eq_refl). reflexivity.
Qed.

Lemma createCustomFlags_same_value_witness :
  nth_error ["A"%string; "B"%string] 0 = Some "A"%string /\
  nth_error ["A"%string; "B"%string] 1 = Some "B"%string /\
  exists o v1 v2,
    createCustomFlags ["A"%string; "B"%string] (mkFlagsManager 0 [])
    = (Normal o, mkFlagsManager 0 []) /\
    get "A" o = Some v1 /\ get "B" o = Some v2 /\ v1 <> v2.
Proof.
  assert (Hnth1 : nth_error ["A"%string; "B"%string] 0 = Some "A"%string)
    by reflexivity.
  assert (Hnth2 : nth_error ["A"%string; "B"%string] 1 = Some "B"%string)
    by reflexivity.
  assert (Hnodup : NoDup ["A"%string; "B"%string]).
  { repeat constructor; cbn [In]; intuition discriminate. }
  split; [exact Hnth1 |]. split; [exact Hnth2 |].
  destruct (createCustomFlags_same_value
              ["A"%string; "B"%string] (mkFlagsManager 0 [])
              0 1 "A"%string "B"%string Hnth1 Hnth2
              ltac:(discriminate) ltac:(discriminate)
              (NoDup_last_occurrence _ _ _ Hnodup Hnth1)
              (NoDup_last_occurrence _ _ _ Hnodup Hnth2))
    as [o [v1 [v2 [Hnew [Hget1 [Hget2 [Hsame _]]]]]]].
  exists o, v1, v2. split; [exact Hnew |]. split; [exact Hget1 |].
  split; [exact Hget2 |].
  intros Heq. apply Hsame in Heq. discriminate.
Defined.

(* ------------------------------------------------------------------ *)
(** ** The register and the list of active names *)

Section ActiveNames.

Lemma filter_all {A : Type} (q : A -> bool) (xs : list A) :
  (forall x, In x xs -> q x = true) -> filter q xs = xs.
Proof.
  induction xs as [| x xs IH]; intros Hall; [reflexivity |].
  cbn [filter]. rewrite Hall by (left; reflexivity).
  f_equal. apply IH. intros y Hy. apply Hall. right; exact Hy.
Qed.

Lemma getActiveFlags_name_test (this : FlagsManager) :
  getActiveFlags this
  = (Normal (filter (name_test this) (keys (FLAGS this))), this).
Proof. apply getActiveFlags_filter. Qed.

(** With constructed definitions, the test of a name reads the one bit of
    its value. *)
Lemma name_test_bit (this : FlagsManager) (name : string) (v : Z) :
  constructed (FLAGS this) ->
  get name (FLAGS this) = Some v ->
  exists i, 0 <= i < 32 /\ v = shl 1 i /\
            name_test this name = Z.testbit (flags this) i.
Proof.
  intros Hcons Hget.
  destruct (constructed_values _ _ Hcons (get_In_values _ _ _ Hget))
    as [i [Hi ->]].
  exists i. split; [exact Hi |]. split; [reflexivity |].
  unfold name_test. rewrite Hget. apply flag_test. exact Hi.
Qed.

End ActiveNames.

(** X19.  With constructed flag definitions, [setFlags] of all the defined
    values makes [getActiveFlags] return every name of the definitions. *)
Theorem setFlags_all_values (this : FlagsManager) :
  constructed (FLAGS this) ->
  exists this',
    setFlags (values (FLAGS this)) this = (Normal tt, this') /\
    getActiveFlags this' = (Normal (keys (FLAGS this)), this').
Proof.
  intros Hcons.
  exists (mkFlagsManager (combine (flags this) (values (FLAGS this)))
                         (FLAGS this)).
  split; [apply setFlags_members; intros a Ha; exact Ha |].
  rewrite getActiveFlags_name_test. cbn [FLAGS]. f_equal. f_equal.
  apply filter_all. intros name Hname.
  destruct (keys_get _ _ Hname) as [v Hv].
  destruct (name_test_bit
              (mkFlagsManager (combine (flags this) (values (FLAGS this)))
                              (FLAGS this)) name v Hcons Hv)
    as [i [Hi [-> Htest]]].
  rewrite Htest. cbn [flags]. rewrite combine_testbit by exact Hi.
  apply orb_true_iff. right. apply existsb_exists.
  exists (shl 1 i). split; [apply get_In_values with (k := name); exact Hv |].
  rewrite shl_1_testbit_small by lia. apply Z.eqb_refl.
Qed.

Lemma setFlags_all_values_witness :
  constructed (FLAGS (mkFlagsManager 0 [("A"%string, 1); ("B"%string, 2)])) /\
  exists this',
    setFlags [1; 2] (mkFlagsManager 0 [("A"%string, 1); ("B"%string, 2)])
    = (Normal tt, this') /\
    getActiveFlags this' = (Normal ["A"%string; "B"%string], this').
Proof.
  assert (Hcons : constructed
                    (FLAGS (mkFlagsManager 0 [("A"%string, 1); ("B"%string, 2)]))).
  { exists (Some ["A"%string; "B"%string]),
           (mkFlagsManager 0 [("A"%string, 1); ("B"%string, 2)]).
    split; reflexivity. }
  split; [exact Hcons |].
  exact (setFlags_all_values _ Hcons).
Defined.

(** X20.  The list [getActiveFlags] returns determines the register: on an
    instance reached from the constructor by any calls, clearing the
    register and then calling [setFlags] with the values of the active names
    gives back the instance as it was. *)
Theorem active_names_restore_register
        (customFlagNames : option (list string)) (this0 : FlagsManager)
        (cs : list call) :
  constructor customFlagNames = Normal this0 ->
  exists active,
    getActiveFlags (after_calls cs this0)
    = (Normal active, after_calls cs this0) /\
    (clearFlags ;;
     setFlags (flag_values_of (FLAGS (after_calls cs this0)) active))
      (after_calls cs this0)
    = (Normal tt, after_calls cs this0).
Proof.
  intros Hnew.
  destruct (after_calls_covered cs this0 (constructor_covered _ _ Hnew))
    as [Hsame [Hrange Hbits]].
  set (this := after_calls cs this0) in *.
  assert (Hcons : constructed (FLAGS this)).
  { rewrite Hsame. exists customFlagNames, this0. split; [exact Hnew | reflexivity]. }
  rewrite <- Hsame in Hbits.
  pose proof (constructed_NoDup _ Hcons) as Hnodup.
  exists (filter (name_test this) (keys (FLAGS this))).
  split; [apply getActiveFlags_name_test |].
  set (vals := flag_values_of (FLAGS this)
                              (filter (name_test this) (keys (FLAGS this)))).
  assert (Hvals : forall f, In f vals <->
            exists name, In name (keys (FLAGS this)) /\
                         name_test this name = true /\
                         get name (FLAGS this) = Some f).
  { intros f. unfold vals, flag_values_of. rewrite in_flat_map. split.
    - intros [name [Hname Hf]]. apply filter_In in Hname.
      destruct Hname as [Hkey Htest]. exists name.
      destruct (get name (FLAGS this)) as [v |]; [| destruct Hf].
      destruct Hf as [<- | []]. auto.
    - intros [name [Hkey [Htest Hget]]]. exists name.
      split; [apply filter_In; split; assumption |].
      rewrite Hget. left; reflexivity. }
  unfold bind. cbn [clearFlags assign_flags].
  rewrite setFlags_members.
  2:{ intros f Hf. apply Hvals in Hf. destruct Hf as [name [_ [_ Hget]]].
      unfold defined_flag. cbn [FLAGS].
      apply get_In_values with (k := name). exact Hget. }
  cbn [flags FLAGS]. f_equal.
  transitivity (mkFlagsManager (flags this) (FLAGS this)); [| apply this_eta].
  f_equal.
  apply Int32_bits_inj;
    [apply combine_range; unfold Int32; lia | exact Hrange |].
  intros n Hn. rewrite combine_testbit, Z.bits_0 by exact Hn. cbn [orb].
  apply eq_iff_eq_true. rewrite existsb_exists. split.
  - intros [f [Hf Hfn]]. apply Hvals in Hf.
    destruct Hf as [name [_ [Htest Hget]]].
    destruct (name_test_bit this name f Hcons Hget) as [i [Hi [-> Hbit]]].
    rewrite shl_1_testbit_small in Hfn by lia.
    apply Z.eqb_eq in Hfn. subst n. congruence.
  - intros Hset. destruct (Hbits n Hn Hset) as [v [Hv Hvn]].
    exists v. split; [| exact Hvn].
    unfold values in Hv. apply in_map_iff in Hv.
    destruct Hv as [[k v'] [Heq Hpair]]. cbn [snd] in Heq. subst v'.
    pose proof (get_In_pair k v _ Hnodup Hpair) as Hget.
    apply Hvals. exists k.
    split; [apply (in_map fst) in Hpair; exact Hpair |].
    split; [| exact Hget].
    destruct (name_test_bit this k v Hcons Hget) as [i [Hi [-> Hbit]]].
    rewrite shl_1_testbit_small in Hvn by lia.
    apply Z.eqb_eq in Hvn. subst n. congruence.
Qed.

Lemma active_names_restore_register_witness :
  constructor None = Normal (mkFlagsManager 0 DEFAULT_FLAGS) /\
  exists active,
    getActiveFlags (after_calls [CallSetFlags [8; 64]; CallToggleFlag 1]
                                (mkFlagsManager 0 DEFAULT_FLAGS))
    = (Normal active, mkFlagsManager 73 DEFAULT_FLAGS) /\
    (clearFlags ;; setFlags (flag_values_of DEFAULT_FLAGS active))
      (mkFlagsManager 73 DEFAULT_FLAGS)
    = (Normal tt, mkFlagsManager 73 DEFAULT_FLAGS).
Proof.
  assert (Hnew : constructor None = Normal (mkFlagsManager 0 DEFAULT_FLAGS))
    by reflexivity.
  split; [exact Hnew |].
  exact (active_names_restore_register
           None _ [CallSetFlags [8; 64]; CallToggleFlag 1] Hnew).
Defined.

(** X21.  With constructed flag definitions, [getActiveFlags] lists only
    names of the definitions and lists no name twice, even when the list the
    constructor was given repeats names. *)
Theorem getActiveFlags_no_repetition (this : FlagsManager) :
  constructed (FLAGS this) ->
  exists active,
    getActiveFlags this = (Normal active, this) /\
    NoDup active /\
    (forall name, In name active -> In name (keys (FLAGS this))).
Proof.
  intros Hcons.
  exists (filter (name_test this) (keys (FLAGS this))).
  split; [apply getActiveFlags_name_test |]. split.
  - apply NoDup_filter. apply constructed_NoDup. exact Hcons.
  - intros name Hname. apply filter_In in Hname. tauto.
Qed.

Lemma getActiveFlags_no_repetition_witness :
  constructed (FLAGS (mkFlagsManager 2 [("A"%string, 2)])) /\
  getActiveFlags (mkFlagsManager 2 [("A"%string, 2)])
  = (Normal ["A"%string], mkFlagsManager 2 [("A"%string, 2)]).
Proof.
  assert (Hcons : constructed (FLAGS (mkFlagsManager 2 [("A"%string, 2)]))).
  { exists (Some ["A"%string; "A"%string]), (mkFlagsManager 0 [("A"%string, 2)]).
    split; reflexivity. }
  split; [exact Hcons |].
  destruct (getActiveFlags_no_repetition _ Hcons) as [active [Hget _]].
  rewrite Hget. f_equal. f_equal.
  rewrite getActiveFlags_name_test in Hget. injection Hget as <-.
  reflexivity.
Defined.

(* ------------------------------------------------------------------ *)
(** ** The range of the register *)

Section Range.

Lemma covered_bound (o : object) (r : Z) (count : Z) :
  0 <= count <= 31 ->
  (forall v k, In v (values o) -> count <= k < 32 -> Z.testbit v k = false) ->
  covered o r ->
  0 <= r < 2 ^ count.
Proof.
  intros Hcount Hvalues [Hrange Hbits].
  assert (Hlow : forall k, count <= k < 32 -> Z.testbit r k = false).
  { intros k Hk. destruct (Z.testbit r k) eqn:Hset; [| reflexivity].
    destruct (Hbits k ltac:(lia) Hset) as [v [Hv Hvk]].
    rewrite (Hvalues v k Hv Hk) in Hvk. discriminate. }
  assert (Hmod : r = r mod 2 ^ count).
  { apply Z.bits_inj'. intros n Hn.
    rewrite Z.testbit_mod_pow2 by lia.
    destruct (Z.ltb_spec n count) as [Hlt | Hge]; [reflexivity |].
    cbn [andb]. destruct (Z_lt_le_dec n 32) as [Hsmall | Hbig].
    - apply Hlow. lia.
    - rewrite (Int32_testbit_sign r n Hrange) by lia. apply Hlow. lia. }
  rewrite Hmod. apply Z.mod_pos_bound. apply Z.pow_pos_nonneg; lia.
Qed.

End Range.

(** X22.  When the constructor was given at most 31 names (or none: the 15
    default flags), the register stays, after any sequence of calls, a
    non-negative integer below 2 to the number of names. *)
Theorem register_below_two_to_count
        (customFlagNames : option (list string)) (this0 : FlagsManager)
        (cs : list call) :
  constructor customFlagNames = Normal this0 ->
  let count := match customFlagNames with
               | Some names => List.length names
               | None => 15%nat
               end in
  (count <= 31)%nat ->
  0 <= flags (after_calls cs this0) < 2 ^ Z.of_nat count.
Proof.
  intros Hnew count Hcount.
  destruct (after_calls_covered cs this0 (constructor_covered _ _ Hnew))
    as [_ Hcov].
  apply (covered_bound (FLAGS this0)); [lia | | exact Hcov].
  intros v k Hv Hk. destruct customFlagNames as [names |].
  - rewrite constructor_custom in Hnew. injection Hnew as <-.
    cbn [FLAGS] in Hv. apply reduce_values in Hv.
    destruct Hv as [[] | [N [HN ->]]]. rewrite Z.add_0_l.
    subst count. rewrite shl_1_testbit_small by lia.
    apply Z.eqb_neq. lia.
  - rewrite constructor_default in Hnew. injection Hnew as <-.
    apply default_values_low; [exact Hv | subst count; lia].
Qed.

Lemma register_below_two_to_count_witness :
  constructor (Some ["A"%string; "B"%string; "C"%string])
  = Normal (mkFlagsManager 0 [("A"%string, 1); ("B"%string, 2); ("C"%string, 4)]) /\
  (3 <= 31)%nat /\
  0 <= flags (after_calls [CallSetFlags [4; 1]; CallToggleFlag 2; CallSetFlags [8]]
                          (mkFlagsManager 0 [("A"%string, 1); ("B"%string, 2);
                                             ("C"%string, 4)])) < 8.
Proof.
  assert (Hnew : constructor (Some ["A"%string; "B"%string; "C"%string])
                 = Normal (mkFlagsManager 0 [("A"%string, 1); ("B"%string, 2);
                                             ("C"%string, 4)]))
    by reflexivity.
  assert (Hcount : (3 <= 31)%nat) by lia.
  split; [exact Hnew |]. split; [exact Hcount |].
  exact (register_below_two_to_count
           _ _ [CallSetFlags [4; 1]; CallToggleFlag 2; CallSetFlags [8]]
           Hnew Hcount).
Defined.

(** X23.  The flag of bit 31, [1 << 31], is the negative number
    -2147483648; on an instance that defines it, the register is negative
    exactly when that flag is set, so [setFlags] of it leaves a negative
    register and [unsetFlag] of it a non-negative one. *)
Theorem bit_31_is_the_sign (this : FlagsManager) :
  instance this ->
  defined_flag this (shl 1 31) ->
  shl 1 31 = -2147483648 /\
  isFlagSet (shl 1 31) this = (Normal (flags this <? 0), this) /\
  (exists this', setFlags [shl 1 31] this = (Normal tt, this') /\
                 flags this' < 0) /\
  (exists this', unsetFlag (shl 1 31) this = (Normal tt, this') /\
                 0 <= flags this').
Proof.
  intros [_ Hrange] Hdef. split; [reflexivity |]. split; [| split].
  - rewrite isFlagSet_member by exact Hdef.
    rewrite flag_test by lia.
    rewrite (Int32_testbit_high _ 31 Hrange) by lia. reflexivity.
  - eexists. split; [apply setFlags_one; exact Hdef |]. cbn [flags].
    apply Z.ltb_lt.
    rewrite <- (Int32_testbit_high _ 31 (bor_range _ _)) by lia.
    rewrite bor_testbit, shl_1_testbit_small by lia. apply orb_true_r.
  - eexists. split; [apply unsetFlag_member; exact Hdef |]. cbn [flags].
    apply Z.ltb_ge.
    rewrite <- (Int32_testbit_high _ 31 (band_range _ _)) by lia.
    rewrite band_testbit, bnot_testbit, shl_1_testbit_small by lia.
    apply andb_false_r.
Qed.

Lemma bit_31_is_the_sign_witness :
  let names := map (fun n => String "F" (decimal (Z.of_nat n))) (seq 0 32) in
  exists this0 this',
    constructor (Some names) = Normal this0 /\
    instance this0 /\
    defined_flag this0 (shl 1 31) /\
    get "F31" (FLAGS this0) = Some (shl 1 31) /\
    setFlags [shl 1 31] this0 = (Normal tt, this') /\
    flags this' < 0.
Proof.
  cbv zeta.
  set (names := map (fun n => String "F" (decimal (Z.of_nat n))) (seq 0 32)).
  set (this0 := mkFlagsManager 0 (reduce assign_bit names [])).
  assert (Hnew : constructor (Some names) = Normal this0)
    by apply constructor_custom.
  assert (Hinst : instance this0).
  { split.
    - exists (Some names), this0. split; [exact Hnew | reflexivity].
    - cbn [this0 flags]. unfold Int32. lia. }
  assert (Hdef : defined_flag this0 (shl 1 31)).
  { unfold defined_flag.
    apply (proj1 (includes_In (shl 1 31) (values (FLAGS this0)))).
    vm_compute. reflexivity. }
  destruct (bit_31_is_the_sign _ Hinst Hdef) as [_ [_ [[this' [Hset Hneg]] _]]].
  exists this0, this'.
  split; [exact Hnew |]. split; [exact Hinst |]. split; [exact Hdef |].
  split; [vm_compute; reflexivity |]. split; [exact Hset | exact Hneg].
Defined.

(* ------------------------------------------------------------------ *)
(** ** The order of the names *)

Section KeyOrder.

Lemma is_index_array_index (k : string) :
  is_index k = true -> exists i, array_index k = Some i.
Proof.
  unfold is_index. destruct (array_index k) as [i |]; [eauto | discriminate].
Qed.

Lemma declared_In (seen names : list string) (k : string) :
  In k (declared seen names) -> In k names.
Proof.
  revert seen. induction names as [| x names IH]; intros seen Hk;
    cbn [declared] in Hk; [destruct Hk |].
  destruct (String.eqb x "__proto__" || existsb (String.eqb x) seen)%bool.
  - right. apply (IH seen). exact Hk.
  - destruct Hk as [<- | Hk]; [left; reflexivity | right].
    apply (IH (seen ++ [x])). exact Hk.
Qed.

(** A new array-index key lands among the index keys, which stay in
    ascending order; the other keys keep their places. *)
Lemma add_index_order (i : N) (x : string) (v : Z) (I O : list string)
      (o : object) :
  keys o = I ++ O ->
  Forall (fun k => is_index k = true) I ->
  Forall (fun k => is_index k = false) O ->
  StronglySorted index_le I ->
  array_index x = Some i ->
  exists I',
    keys (add_index i x v o) = I' ++ O /\
    Forall (fun k => is_index k = true) I' /\
    StronglySorted index_le I' /\
    (forall k, In k I' -> k = x \/ In k I).
Proof.
  intros Hkeys HI HO Hsorted Hx.
  assert (Hxi : is_index x = true) by (unfold is_index; rewrite Hx; reflexivity).
  revert o Hkeys.
  induction I as [| k1 I1 IH]; intros o Hkeys.
  - exists [x]. cbn [app] in Hkeys. split; [| split; [| split]].
    + destruct o as [| [k1 v1] o']; [cbn in Hkeys; subst O; reflexivity |].
      cbn [add_index]. cbn [keys map fst] in Hkeys.
      assert (Hk1 : is_index k1 = false).
      { rewrite <- Hkeys in HO. inversion HO; assumption. }
      unfold is_index in Hk1.
      destruct (array_index k1); [discriminate |].
      cbn [keys map fst app]. f_equal. exact Hkeys.
    + constructor; [exact Hxi | constructor].
    + constructor; constructor.
    + intros k [<- | []]. left; reflexivity.
  - destruct o as [| [k v1] o']; [discriminate |].
    cbn [keys map fst app] in Hkeys. injection Hkeys as -> Hkeys'.
    fold (keys o') in Hkeys'.
    inversion HI as [| ? ? Hk1 HI1]; subst.
    inversion Hsorted as [| ? ? Hsorted1 Hk1le]; subst.
    destruct (is_index_array_index _ Hk1) as [j Hj].
    cbn [add_index]. rewrite Hj.
    destruct (N.ltb_spec j i) as [Hlt | Hge].
    + destruct (IH HI1 Hsorted1 o' Hkeys') as [I1' [Hk' [HI' [Hs' Hin']]]].
      exists (k1 :: I1'). split; [| split; [| split]].
      * cbn [keys map fst app]. f_equal. exact Hk'.
      * constructor; assumption.
      * constructor; [exact Hs' |].
        apply Forall_forall. intros k Hk. destruct (Hin' k Hk) as [-> | Hold].
        -- unfold index_le. rewrite Hj, Hx. lia.
        -- rewrite Forall_forall in Hk1le. apply Hk1le. exact Hold.
      * intros k [<- | Hk]; [right; left; reflexivity |].
        destruct (Hin' k Hk) as [-> | Hold]; [left; reflexivity |].
        right; right; exact Hold.
    + exists (x :: k1 :: I1). split; [| split; [| split]].
      * cbn [keys map fst app]. do 2 f_equal. exact Hkeys'.
      * constructor; [exact Hxi | exact HI].
      * constructor; [exact Hsorted |].
        constructor; [unfold index_le; rewrite Hx, Hj; lia |].
        apply Forall_forall. intros k Hk.
        rewrite Forall_forall in Hk1le. specialize (Hk1le k Hk).
        unfold index_le in *. rewrite Hj in Hk1le. rewrite Hx.
        destruct (array_index k); [lia | exact Hk1le].
      * intros k [<- | Hk]; [left; reflexivity | right; exact Hk].
Qed.

Lemma existsb_eqb_In (x : string) (l : list string) :
  existsb (String.eqb x) l = true <-> In x l.
Proof.
  rewrite existsb_exists. split.
  - intros [y [Hy Heq]]. apply String.eqb_eq in Heq. subst y. exact Hy.
  - intros Hx. exists x. split; [exact Hx | apply String.eqb_refl].
Qed.

(** The keys after the [reduce]: index keys in ascending order, then the
    keys that were there, then the other names as first declared. *)
Lemma reduce_order (names : list string) (index : Z) (acc : object)
      (I O : list string) :
  keys acc = I ++ O ->
  Forall (fun k => is_index k = true) I ->
  Forall (fun k => is_index k = false) O ->
  StronglySorted index_le I ->
  exists I',
    keys (reduce_from assign_bit index names acc)
    = I' ++ O ++ declared O (filter (fun k => negb (is_index k)) names) /\
    Forall (fun k => is_index k = true) I' /\
    StronglySorted index_le I'.
Proof.
  revert index acc I O.
  induction names as [| x names IH]; intros index acc I O Hkeys HI HO Hsorted.
  - exists I. cbn [reduce_from filter declared]. rewrite app_nil_r. auto.
  - cbn [reduce_from filter]. unfold assign_bit at 2. unfold set.
    destruct (String.eqb_spec x "__proto__") as [-> | Hproto].
    + change (negb (is_index "__proto__")) with true. cbv iota.
      cbn [declared]. rewrite String.eqb_refl. cbn [orb].
      apply (IH _ _ I O); assumption.
    + destruct (has x acc) eqn:Hhas.
      * assert (Hkeys' : keys (update x (shl 1 index) acc) = I ++ O)
          by (rewrite keys_update; exact Hkeys).
        destruct (IH (index + 1) _ I O Hkeys' HI HO Hsorted)
          as [I' [Hk' [HI' Hs']]].
        exists I'. split; [| split; assumption]. rewrite Hk'.
        destruct (is_index x) eqn:Hix; cbn [negb]; [reflexivity |].
        cbn [declared].
        assert (HxO : In x O).
        { apply has_keys in Hhas. rewrite Hkeys in Hhas.
          apply in_app_or in Hhas. destruct Hhas as [HxI | HxO]; [| exact HxO].
          rewrite Forall_forall in HI. rewrite (HI x HxI) in Hix. discriminate. }
        apply existsb_eqb_In in HxO. rewrite HxO, orb_true_r. reflexivity.
      * destruct (array_index x) as [i |] eqn:Hx.
        -- destruct (add_index_order i x (shl 1 index) I O acc
                       Hkeys HI HO Hsorted Hx) as [I1 [Hk1 [HI1 [Hs1 _]]]].
           destruct (IH (index + 1) _ I1 O Hk1 HI1 HO Hs1)
             as [I' [Hk' [HI' Hs']]].
           exists I'. split; [| split; assumption]. rewrite Hk'.
           unfold is_index at 2. rewrite Hx. reflexivity.
        -- assert (Hix : is_index x = false)
             by (unfold is_index; rewrite Hx; reflexivity).
           assert (Hkeys' : keys (acc ++ [(x, shl 1 index)]) = I ++ (O ++ [x])).
           { unfold keys. rewrite map_app. fold (keys acc). rewrite Hkeys.
             rewrite <- app_assoc. reflexivity. }
           assert (HO' : Forall (fun k => is_index k = false) (O ++ [x])).
           { apply Forall_app. split; [exact HO |]. constructor; [exact Hix | constructor]. }
           destruct (IH (index + 1) _ I (O ++ [x]) Hkeys' HI HO' Hsorted)
             as [I' [Hk' [HI' Hs']]].
           exists I'. split; [| split; assumption]. rewrite Hk'.
           rewrite Hix. cbn [negb declared].
           apply String.eqb_neq in Hproto. rewrite Hproto. cbn [orb].
           assert (HxO : existsb (String.eqb x) O = false).
           { destruct (existsb (String.eqb x) O) eqn:Hex; [| reflexivity].
             apply existsb_eqb_In in Hex.
             assert (Hin : In x (keys acc))
               by (rewrite Hkeys; apply in_or_app; right; exact Hex).
             apply has_keys in Hin. congruence. }
           rewrite HxO. rewrite <- !app_assoc. reflexivity.
Qed.

(** The names of constructed flag definitions, in [Object.keys] order. *)
Lemma constructor_keys_order (customFlagNames : option (list string))
      (this0 : FlagsManager) :
  constructor customFlagNames = Normal this0 ->
  exists index_names,
    keys (FLAGS this0)
    = index_names
      ++ declared [] (filter (fun k => negb (is_index k))
                             (declared_names customFlagNames)) /\
    Forall (fun k => is_index k = true) index_names /\
    StronglySorted index_le index_names /\
    (forall k, In k index_names <->
               In k (declared_names customFlagNames) /\ is_index k = true).
Proof.
  intros Hnew.
  assert (HFLAGS : FLAGS this0
                   = reduce assign_bit (declared_names customFlagNames) []).
  { destruct customFlagNames as [names |].
    - rewrite constructor_custom in Hnew. injection Hnew as <-. reflexivity.
    - rewrite constructor_default in Hnew. injection Hnew as <-. reflexivity. }
  rewrite HFLAGS. unfold reduce.
  set (names := declared_names customFlagNames).
  destruct (reduce_order names 0 [] [] [] eq_refl
              (Forall_nil _) (Forall_nil _) (SSorted_nil _))
    as [I' [Hk' [HI' Hs']]].
  cbn [app] in Hk'.
  exists I'. split; [exact Hk' |]. split; [exact HI' |]. split; [exact Hs' |].
  destruct (reduce_keys names 0 [] (NoDup_nil string)) as [_ Hin].
  intros k. split.
  - intros Hk. split; [| rewrite Forall_forall in HI'; apply HI'; exact Hk].
    assert (Hkey : In k (keys (reduce_from assign_bit 0 names [])))
      by (rewrite Hk'; apply in_or_app; left; exact Hk).
    apply Hin in Hkey. cbn [keys map In] in Hkey. tauto.
  - intros [Hk Hix].
    assert (Hproto : k <> "__proto__"%string) by (intros ->; discriminate).
    assert (Hkey : In k (keys (reduce_from assign_bit 0 names [])))
      by (apply Hin; right; split; assumption).
    rewrite Hk' in Hkey. apply in_app_or in Hkey.
    destruct Hkey as [HkI | HkO]; [exact HkI |].
    apply declared_In in HkO. apply filter_In in HkO.
    destruct HkO as [_ Hnot]. rewrite Hix in Hnot. discriminate.
Qed.

End KeyOrder.

(** C7, as the specification states it, fails when a flag name is an array
    index: from the names ["b"; "1"], with both flags set, [getActiveFlags()]
    returns ["1"; "b"], which is not the order of declaration. *)
Lemma getActiveFlags_not_declaration_order :
  exists this0 this1,
    constructor (Some ["b"%string; "1"%string]) = Normal this0 /\
    get "b" (FLAGS this0) = Some 1 /\
    get "1" (FLAGS this0) = Some 2 /\
    setFlags [1; 2] this0 = (Normal tt, this1) /\
    getActiveFlags this1 = (Normal ["1"%string; "b"%string], this1) /\
    filter (flag_active this1) ["b"%string; "1"%string]
    = ["b"%string; "1"%string] /\
    getActiveFlags this1
    <> (Normal (filter (flag_active this1) ["b"%string; "1"%string]), this1).
Proof.
  exists (mkFlagsManager 0 [("1"%string, 2); ("b"%string, 1)]),
         (mkFlagsManager 3 [("1"%string, 2); ("b"%string, 1)]).
  split; [reflexivity |]. split; [reflexivity |]. split; [reflexivity |].
  split; [reflexivity |]. split; [reflexivity |]. split; [reflexivity |].
  discriminate.
Qed.

(** C7, amended.  With the flag definitions the constructor built and
    whatever the register holds, [getActiveFlags()] returns normally, leaves
    the instance as it was, and its result is exactly the names whose bit is
    set in the register, in the order [Object.keys] gives the names: first
    the declared names that are array indices, in ascending numeric order,
    then the other declared names in the order of their first declaration
    (["__proto__"] is never one); so the result is in declaration order when
    no declared name is an array index.  [clearFlags()] always returns
    normally with the register at 0, and [getActiveFlags()] right after it
    returns the empty array. *)
Theorem getActiveFlags_spec
        (customFlagNames : option (list string)) (this0 this : FlagsManager) :
  constructor customFlagNames = Normal this0 ->
  FLAGS this = FLAGS this0 ->
  exists index_names,
    getActiveFlags this
    = (Normal (filter (flag_active this)
                      (index_names
                       ++ declared [] (filter (fun k => negb (is_index k))
                                              (declared_names customFlagNames)))),
       this) /\
    keys (FLAGS this)
    = index_names
      ++ declared [] (filter (fun k => negb (is_index k))
                             (declared_names customFlagNames)) /\
    Forall (fun k => is_index k = true) index_names /\
    StronglySorted index_le index_names /\
    (forall k, In k index_names <->
               In k (declared_names customFlagNames) /\ is_index k = true) /\
    ((forall k, In k (declared_names customFlagNames) -> is_index k = false) ->
     getActiveFlags this
     = (Normal (filter (flag_active this)
                       (declared [] (declared_names customFlagNames))),
        this)) /\
    clearFlags this = (Normal tt, mkFlagsManager 0 (FLAGS this)) /\
    (clearFlags ;; getActiveFlags) this
    = (Normal [], mkFlagsManager 0 (FLAGS this)).
Proof.
  intros Hnew Hsame.
  assert (Hcons : constructed (FLAGS this)).
  { rewrite Hsame. exists customFlagNames, this0. split; [exact Hnew | reflexivity]. }
  destruct (getActiveFlags_active this Hcons) as [Hget [Hclear Hafter]].
  destruct (constructor_keys_order _ _ Hnew)
    as [index_names [Hkeys [Hindex [Hsorted Hin]]]].
  rewrite <- Hsame in Hkeys.
  exists index_names.
  split; [rewrite <- Hkeys; exact Hget |]. split; [exact Hkeys |].
  split; [exact Hindex |]. split; [exact Hsorted |]. split; [exact Hin |].
  split; [| split; [exact Hclear | exact Hafter]].
  intros Hnone. rewrite Hget, Hkeys.
  assert (Hempty : index_names = []).
  { destruct index_names as [| k rest]; [reflexivity |].
    assert (Hk : In k (k :: rest)) by (left; reflexivity).
    apply Hin in Hk. destruct Hk as [Hk Hix].
    rewrite (Hnone k Hk) in Hix. discriminate. }
  rewrite Hempty. cbn [app].
  rewrite (filter_all (fun k => negb (is_index k))); [reflexivity |].
  intros k Hk. rewrite (Hnone k Hk). reflexivity.
Qed.

Lemma getActiveFlags_spec_witness :
  constructor (Some ["b"%string; "1"%string; "a"%string; "0"%string; "b"%string])
  = Normal (mkFlagsManager 0 [("0"%string, 8); ("1"%string, 2);
                              ("b"%string, 16); ("a"%string, 4)]) /\
  getActiveFlags (mkFlagsManager 26 [("0"%string, 8); ("1"%string, 2);
                                     ("b"%string, 16); ("a"%string, 4)])
  = (Normal ["0"%string; "1"%string; "b"%string],
     mkFlagsManager 26 [("0"%string, 8); ("1"%string, 2);
                        ("b"%string, 16); ("a"%string, 4)]).
Proof.
  assert (Hnew :
    constructor (Some ["b"%string; "1"%string; "a"%string; "0"%string; "b"%string])
    = Normal (mkFlagsManager 0 [("0"%string, 8); ("1"%string, 2);
                                ("b"%string, 16); ("a"%string, 4)]))
    by reflexivity.
  split; [exact Hnew |].
  destruct (getActiveFlags_spec
              _ _ (mkFlagsManager 26 [("0"%string, 8); ("1"%string, 2);
                                      ("b"%string, 16); ("a"%string, 4)])
              Hnew eq_refl)
    as [index_names [Hget [Hkeys _]]].
  assert (Hindex : index_names = ["0"%string; "1"%string]).
  { change (index_names ++ ["b"%string; "a"%string]
            = ["0"%string; "1"%string] ++ ["b"%string; "a"%string]) in Hkeys
      || change (["0"%string; "1"%string] ++ ["b"%string; "a"%string]
                 = index_names ++ ["b"%string; "a"%string]) in Hkeys.
    apply app_inv_tail in Hkeys. symmetry. exact Hkeys. }
  rewrite Hindex in Hget. exact Hget.
Defined.
